(** * Rick-and-Morty character pipeline: fetch, cache, report

    A shallow embedding of [main.py]: the four classes
    [APICharacterRetriever], [RedisDataHandler], [CharacterDataProcessor]
    and [WorkflowExecutor], followed by the properties of the
    specification that they satisfy (or fail to satisfy).

    Conventions of the embedding.
    - A Python [str] is a Rocq [string]; each character stands for the
      code point of the same number, so the model covers text whose code
      points are below 256.
    - Python values that travel through the pipeline are the ones a JSON
      document decodes to: [None], booleans, integers, strings, lists and
      dictionaries with string keys (type [value]).  A dictionary is an
      association list in insertion order.
    - A computation that may raise returns a [result]; a computation that
      also acts on the outside world is a function of type [M S A]
      threading a state [S] and returning a [result].  The state keeps
      what was done before an exception was raised.
    - The outside world ([world]) holds the answers of the HTTP server and
      of the Redis server, the Redis key space and the ordered trace of
      every observable action (network calls, printed text, chart calls). *)

From Stdlib Require Import String Ascii List ZArith NArith Bool Lia.
From Stdlib Require Import DecimalString DecimalN DecimalZ DecimalPos.
From stdpp Require Import gmap strings.
Import ListNotations.

Local Open Scope string_scope.
Local Open Scope list_scope.
Local Open Scope Z_scope.

(** ** Python strings *)

Definition nl : string := String (ascii_of_N 10) EmptyString.

(** The double quote character. *)
Definition dquote : ascii := ascii_of_N 34.

(** [str.lower()] on code points below 256: the letters A-Z and the
    Latin-1 capitals U+00C0..U+00DE (the multiplication sign U+00D7
    apart) move up by 32; every other character is kept. *)
Definition lower_char (c : ascii) : ascii :=
  let n := N_of_ascii c in
  if ((65 <=? n) && (n <=? 90) ||
      (192 <=? n) && (n <=? 222) && negb (n =? 215))%N
  then ascii_of_N (n + 32) else c.

Fixpoint lower (s : string) : string :=
  match s with
  | EmptyString => EmptyString
  | String c s' => String (lower_char c) (lower s')
  end.

(** [needle in haystack] for two strings. *)
Fixpoint contains (haystack needle : string) : bool :=
  String.prefix needle haystack ||
  match haystack with
  | EmptyString => false
  | String _ h => contains h needle
  end.

Fixpoint join (sep : string) (l : list string) : string :=
  match l with
  | [] => ""
  | [x] => x
  | x :: l' => x +:+ sep +:+ join sep l'
  end.

(** [str(n)] for an integer. *)
Definition str_of_nat (n : N) : string := NilZero.string_of_uint (N.to_uint n).
Definition str_of_int (z : Z) : string := NilZero.string_of_int (Z.to_int z).

Definition hex_digit (n : N) : ascii :=
  if (n <? 10)%N then ascii_of_N (48 + n) else ascii_of_N (87 + n).

Definition hex2 (c : ascii) : string :=
  let n := N_of_ascii c in
  String (hex_digit (n / 16)) (String (hex_digit (n mod 16)) "").

(** ** Python values, exceptions and results *)

#[local] Unset Elimination Schemes.
Inductive value : Type :=
| VNone
| VBool (b : bool)
| VInt (z : Z)
| VStr (s : string)
| VList (l : list value)
| VDict (d : list (string * value)).
#[local] Set Elimination Schemes.

Inductive exn : Type :=
| KeyError (key : string)
| TypeError
| AttributeError
| HTTPError (status : Z)
| JSONDecodeError
| RedisConnectionError (msg : string)
| OtherError (name : string)
| SystemExit (code : Z).

Inductive result (A : Type) : Type :=
| Ret (a : A)
| Raise (e : exn).
Arguments Ret {A} a.
Arguments Raise {A} e.

Definition rbind {A B} (r : result A) (k : A -> result B) : result B :=
  match r with
  | Ret a => k a
  | Raise e => Raise e
  end.

Notation "'let?' x := r 'in' k" := (rbind r (fun x => k))
  (at level 10, x name, r at level 100, k at level 200).

(** [repr(s)] for a string: single quotes unless the text has a single
    quote and no double quote. *)
Definition repr_quote (s : string) : ascii :=
  if contains s "'" && negb (contains s (String dquote "")) then dquote else "'"%char.

Definition repr_char (q c : ascii) : string :=
  let n := N_of_ascii c in
  if Ascii.eqb c q || Ascii.eqb c "\"%char then String "\" (String c "")
  else if (n =? 9)%N then "\t"
  else if (n =? 10)%N then "\n"
  else if (n =? 13)%N then "\r"
  else if ((n <? 32) || (n =? 127))%N then "\x" +:+ hex2 c
  else if (n <? 127)%N then String c ""
  else if ((n <=? 160) || (n =? 173))%N then "\x" +:+ hex2 c
  else String c "".

Fixpoint repr_chars (q : ascii) (s : string) : string :=
  match s with
  | EmptyString => ""
  | String c s' => repr_char q c +:+ repr_chars q s'
  end.

Definition repr_str (s : string) : string :=
  let q := repr_quote s in String q (repr_chars q s +:+ String q "").

Fixpoint py_repr (v : value) : string :=
  match v with
  | VNone => "None"
  | VBool true => "True"
  | VBool false => "False"
  | VInt z => str_of_int z
  | VStr s => repr_str s
  | VList l => "[" +:+ join ", " (map py_repr l) +:+ "]"
  | VDict d =>
      "{" +:+ join ", " (map (fun kv => repr_str (fst kv) +:+ ": " +:+ py_repr (snd kv)) d) +:+ "}"
  end.

(** [str(v)], which is what an f-string field without a format
    specification inserts. *)
Definition py_str (v : value) : string :=
  match v with
  | VStr s => s
  | _ => py_repr v
  end.

(** ** Operations on values *)

Fixpoint dict_get (k : string) (d : list (string * value)) : option value :=
  match d with
  | [] => None
  | (k', x) :: d' => if String.eqb k' k then Some x else dict_get k d'
  end.

(** [v[k]] with a string subscript. *)
Definition getitem (v : value) (k : string) : result value :=
  match v with
  | VDict d =>
      match dict_get k d with
      | Some x => Ret x
      | None => Raise (KeyError k)
      end
  | _ => Raise TypeError
  end.

(** [v.lower()]. *)
Definition py_lower (v : value) : result string :=
  match v with
  | VStr s => Ret (lower s)
  | _ => Raise AttributeError
  end.

Fixpoint chars (s : string) : list value :=
  match s with
  | EmptyString => []
  | String c s' => VStr (String c "") :: chars s'
  end.

(** The elements that [for x in v] visits. *)
Definition iter_value (v : value) : result (list value) :=
  match v with
  | VList l => Ret l
  | VDict d => Ret (map (fun kv => VStr (fst kv)) d)
  | VStr s => Ret (chars s)
  | _ => Raise TypeError
  end.

(** A list comprehension [[x for x in l if cond x]] whose condition may
    raise: elements are tested from left to right. *)
Fixpoint comprehension {X} (cond : X -> result bool) (l : list X) : result (list X) :=
  match l with
  | [] => Ret []
  | x :: l' =>
      let? b := cond x in
      let? rest := comprehension cond l' in
      Ret (if b then x :: rest else rest)
  end.

(** ** [collections.Counter] *)

(** A counter is a dictionary from hashable values to counts, in
    insertion order. *)
Definition Counter : Type := list (value * Z).

Definition hashable (v : value) : result value :=
  match v with
  | VList _ | VDict _ => Raise TypeError
  | _ => Ret v
  end.

Definition numeric (v : value) : option Z :=
  match v with
  | VBool b => Some (if b then 1 else 0)
  | VInt z => Some z
  | _ => None
  end.

(** [a == b] on hashable values. *)
Definition key_eqb (a b : value) : bool :=
  match a, b with
  | VNone, VNone => true
  | VStr s, VStr t => String.eqb s t
  | _, _ =>
      match numeric a, numeric b with
      | Some x, Some y => Z.eqb x y
      | _, _ => false
      end
  end.

(** [c[k] = c.get(k, 0) + 1]: an existing key keeps its place. *)
Fixpoint counter_incr (k : value) (c : Counter) : Counter :=
  match c with
  | [] => [(k, 1)]
  | (k', n) :: c' =>
      if key_eqb k' k then (k', n + 1) :: c' else (k', n) :: counter_incr k c'
  end.

(** [Counter(f(x) for x in l)]: the generator is consumed one element at
    a time, so the first failing element decides the exception. *)
Fixpoint counter_update (f : value -> result value) (l : list value) (c : Counter)
  : result Counter :=
  match l with
  | [] => Ret c
  | x :: l' =>
      let? y := f x in
      let? k := hashable y in
      counter_update f l' (counter_incr k c)
  end.

Definition counter_keys (c : Counter) : list value := map fst c.
Definition counter_values (c : Counter) : list Z := map snd c.

(** ** The JSON codec ([json.dumps], [json.loads])

    The text format of Python's [json] module with its default
    options, on the values of type [value]: separators [", "] and
    [": "], and [ensure_ascii], so that every character outside the
    printable ASCII range is written as an escape.  The decoder reads
    any JSON text made of the literals, integers, strings, arrays and
    objects; numbers with a fraction or an exponent, the non-finite
    literals and escapes of code points above 255 have no counterpart in
    [value] and are reported as decoding errors. *)

Definition json_escape_char (c : ascii) : string :=
  let n := N_of_ascii c in
  if Ascii.eqb c dquote then String "\" (String dquote "")
  else if Ascii.eqb c "\"%char then "\\"
  else if (n =? 10)%N then "\n"
  else if (n =? 13)%N then "\r"
  else if (n =? 9)%N then "\t"
  else if (n =? 8)%N then "\b"
  else if (n =? 12)%N then "\f"
  else if ((n <? 32) || (126 <? n))%N then "\u00" +:+ hex2 c
  else String c "".

Fixpoint json_escape (s : string) : string :=
  match s with
  | EmptyString => ""
  | String c s' => json_escape_char c +:+ json_escape s'
  end.

Definition json_encode_string (s : string) : string :=
  String dquote (json_escape s +:+ String dquote "").

Fixpoint json_dumps (v : value) : string :=
  match v with
  | VNone => "null"
  | VBool true => "true"
  | VBool false => "false"
  | VInt z => str_of_int z
  | VStr s => json_encode_string s
  | VList l => "[" +:+ join ", " (map json_dumps l) +:+ "]"
  | VDict d =>
      "{" +:+ join ", " (map (fun kv => json_encode_string (fst kv) +:+ ": " +:+ json_dumps (snd kv)) d) +:+ "}"
  end.

Definition is_ws (c : ascii) : bool :=
  let n := N_of_ascii c in ((n =? 32) || (n =? 9) || (n =? 10) || (n =? 13))%N.

Fixpoint skip_ws (s : string) : string :=
  match s with
  | String c s' => if is_ws c then skip_ws s' else s
  | EmptyString => s
  end.

Definition is_digit (c : ascii) : bool :=
  let n := N_of_ascii c in ((48 <=? n) && (n <=? 57))%N.

Definition hex_val (c : ascii) : option N :=
  let n := N_of_ascii c in
  if ((48 <=? n) && (n <=? 57))%N then Some (n - 48)%N
  else if ((97 <=? n) && (n <=? 102))%N then Some (n - 87)%N
  else if ((65 <=? n) && (n <=? 70))%N then Some (n - 55)%N
  else None.

Definition hex4 (a b c d : ascii) : option N :=
  match hex_val a, hex_val b, hex_val c, hex_val d with
  | Some x, Some y, Some z, Some t => Some (((x * 16 + y) * 16 + z) * 16 + t)%N
  | _, _, _, _ => None
  end.

Definition json_unescape (e : ascii) : option ascii :=
  if Ascii.eqb e dquote then Some dquote
  else if Ascii.eqb e "\"%char then Some "\"%char
  else if Ascii.eqb e "/"%char then Some "/"%char
  else if Ascii.eqb e "n"%char then Some (ascii_of_N 10)
  else if Ascii.eqb e "r"%char then Some (ascii_of_N 13)
  else if Ascii.eqb e "t"%char then Some (ascii_of_N 9)
  else if Ascii.eqb e "b"%char then Some (ascii_of_N 8)
  else if Ascii.eqb e "f"%char then Some (ascii_of_N 12)
  else None.

(** The text of a string literal after its opening quote: the decoded
    string and what follows the closing quote. *)
Fixpoint scan_string (s : string) : option (string * string) :=
  match s with
  | EmptyString => None
  | String c r =>
      if Ascii.eqb c dquote then Some ("", r)
      else if Ascii.eqb c "\"%char then
        match r with
        | EmptyString => None
        | String e r1 =>
            if Ascii.eqb e "u"%char then
              match r1 with
              | String h1 (String h2 (String h3 (String h4 r2))) =>
                  match hex4 h1 h2 h3 h4 with
                  | Some n =>
                      if (n <? 256)%N then
                        match scan_string r2 with
                        | Some (t, rest) => Some (String (ascii_of_N n) t, rest)
                        | None => None
                        end
                      else None
                  | None => None
                  end
              | _ => None
              end
            else
              match json_unescape e with
              | Some ch =>
                  match scan_string r1 with
                  | Some (t, rest) => Some (String ch t, rest)
                  | None => None
                  end
              | None => None
              end
        end
      else if (N_of_ascii c <? 32)%N then None
      else
        match scan_string r with
        | Some (t, rest) => Some (String c t, rest)
        | None => None
        end
  end.

(** The longest prefix of decimal digits and the rest. *)
Fixpoint scan_digits (s : string) : string * string :=
  match s with
  | String c s' =>
      if is_digit c then let (ds, rest) := scan_digits s' in (String c ds, rest)
      else ("", s)
  | EmptyString => ("", s)
  end.

Definition starts_float_part (s : string) : bool :=
  match s with
  | String c _ => Ascii.eqb c "."%char || Ascii.eqb c "e"%char || Ascii.eqb c "E"%char
  | EmptyString => false
  end.

(** An unsigned integer literal: digits without a superfluous leading
    zero, not followed by a fraction or an exponent. *)
Definition scan_nat (s : string) : option (N * string) :=
  let (ds, rest) := scan_digits s in
  match NilZero.uint_of_string ds with
  | Some d =>
      let n := N.of_uint d in
      if String.eqb (str_of_nat n) ds && negb (starts_float_part rest)
      then Some (n, rest) else None
  | None => None
  end.

Definition scan_number (s : string) : option (value * string) :=
  match s with
  | String c s' =>
      if Ascii.eqb c "-"%char then
        match scan_nat s' with
        | Some (n, rest) => Some (VInt (- Z.of_N n), rest)
        | None => None
        end
      else
        match scan_nat s with
        | Some (n, rest) => Some (VInt (Z.of_N n), rest)
        | None => None
        end
  | EmptyString => None
  end.

Definition expect (lit : string) (v : value) (s : string) : option (value * string) :=
  if String.prefix lit s
  then Some (v, String.substring (String.length lit) (String.length s - String.length lit) s)
  else None.

(** [d[k] = x] on a dictionary: an existing key keeps its place. *)
Fixpoint dict_set (k : string) (x : value) (d : list (string * value)) : list (string * value) :=
  match d with
  | [] => [(k, x)]
  | (k', y) :: d' => if String.eqb k' k then (k', x) :: d' else (k', y) :: dict_set k x d'
  end.

Definition dict_of_pairs (pairs : list (string * value)) : list (string * value) :=
  fold_left (fun d kv => dict_set (fst kv) (snd kv) d) pairs [].

(** The recursive-descent scanner.  [fuel] bounds the nesting of calls;
    [json_loads] supplies more than any input can use. *)
Fixpoint scan_value (fuel : nat) (s : string) {struct fuel} : option (value * string) :=
  match fuel with
  | O => None
  | S f =>
      match skip_ws s with
      | EmptyString => None
      | String c r =>
          if Ascii.eqb c "n"%char then expect "null" VNone (String c r)
          else if Ascii.eqb c "t"%char then expect "true" (VBool true) (String c r)
          else if Ascii.eqb c "f"%char then expect "false" (VBool false) (String c r)
          else if Ascii.eqb c dquote then
            match scan_string r with
            | Some (t, rest) => Some (VStr t, rest)
            | None => None
            end
          else if Ascii.eqb c "["%char then
            match skip_ws r with
            | String c' r' =>
                if Ascii.eqb c' "]"%char then Some (VList [], r')
                else
                  match scan_elements f (String c' r') with
                  | Some (l, rest) => Some (VList l, rest)
                  | None => None
                  end
            | EmptyString => None
            end
          else if Ascii.eqb c "{"%char then
            match skip_ws r with
            | String c' r' =>
                if Ascii.eqb c' "}"%char then Some (VDict [], r')
                else
                  match scan_members f (String c' r') with
                  | Some (l, rest) => Some (VDict (dict_of_pairs l), rest)
                  | None => None
                  end
            | EmptyString => None
            end
          else scan_number (String c r)
      end
  end
with scan_elements (fuel : nat) (s : string) {struct fuel} : option (list value * string) :=
  match fuel with
  | O => None
  | S f =>
      match scan_value f s with
      | Some (v, r) =>
          match skip_ws r with
          | String c r' =>
              if Ascii.eqb c ","%char then
                match scan_elements f r' with
                | Some (l, rest) => Some (v :: l, rest)
                | None => None
                end
              else if Ascii.eqb c "]"%char then Some ([v], r')
              else None
          | EmptyString => None
          end
      | None => None
      end
  end
with scan_members (fuel : nat) (s : string) {struct fuel}
  : option (list (string * value) * string) :=
  match fuel with
  | O => None
  | S f =>
      match skip_ws s with
      | String q r0 =>
          if Ascii.eqb q dquote then
            match scan_string r0 with
            | Some (k, r1) =>
                match skip_ws r1 with
                | String c r2 =>
                    if Ascii.eqb c ":"%char then
                      match scan_value f r2 with
                      | Some (v, r3) =>
                          match skip_ws r3 with
                          | String c' r4 =>
                              if Ascii.eqb c' ","%char then
                                match scan_members f r4 with
                                | Some (l, rest) => Some ((k, v) :: l, rest)
                                | None => None
                                end
                              else if Ascii.eqb c' "}"%char then Some ([(k, v)], r4)
                              else None
                          | EmptyString => None
                          end
                      | None => None
                      end
                    else None
                | EmptyString => None
                end
            | None => None
            end
          else None
      | EmptyString => None
      end
  end.

Definition json_loads (s : string) : result value :=
  match scan_value (S (String.length s)) s with
  | Some (v, rest) =>
      match skip_ws rest with
      | EmptyString => Ret v
      | _ => Raise JSONDecodeError
      end
  | None => Raise JSONDecodeError
  end.


(** ** The outside world and the monad of effects *)

Record response : Type := {
  status_code : Z;
  body : option value   (* the JSON document of the body, if it is one *)
}.

(** [Response.json()]. *)
Definition json (r : response) : result value :=
  match body r with
  | Some v => Ret v
  | None => Raise JSONDecodeError
  end.

(** A bar of the chart: the abscissa of its centre,
    [get_x() + get_width()/2], is its rank among the categories. *)
Record bar : Type := {
  bar_center : nat;
  bar_height : Z
}.

Inductive event : Type :=
| HttpGet (url : string)
| RedisPing (host : string) (port : Z)
| RedisSet (key text : string)
| RedisGet (key : string)
| Print (text : string)
| PltFigure (width height : Z)
| PltBar (keys : list value) (heights : list Z) (color : list string)
| PltXlabel (text : string) (fontsize : Z)
| PltYlabel (text : string) (fontsize : Z)
| PltTitle (text : string) (fontsize : Z)
| PltXticks (fontsize : Z)
| PltYticks (fontsize : Z)
| PltText (x : nat) (y : Z) (label : Z)
| PltSavefig (path : string)
| PltShow.

Record world : Type := {
  http : string -> result response;   (* the answer of [requests.get] *)
  redis_ping_exn : option exn;        (* what PING raises, if anything *)
  redis_cmd_exn : option exn;         (* what SET and GET raise, if anything *)
  store : gmap string string;         (* the Redis key space *)
  trace : list event                  (* the actions performed so far *)
}.

Definition M (S A : Type) : Type := S -> result A * S.

Definition ret {S A} (a : A) : M S A := fun s => (Ret a, s).

Definition raise {S A} (e : exn) : M S A := fun s => (Raise e, s).

Definition bind {S A B} (m : M S A) (k : A -> M S B) : M S B :=
  fun s =>
    match m s with
    | (Ret a, s') => k a s'
    | (Raise e, s') => (Raise e, s')
    end.

Notation "x <- m ;; k" := (bind m (fun x => k))
  (at level 100, m at next level, right associativity).
Notation "m ;;; k" := (bind m (fun _ => k))
  (at level 100, right associativity).

Definition lift_result {S A} (r : result A) : M S A := fun s => (r, s).

(** [try: m  except <the exceptions h accepts>: h e]. *)
Definition try_except {S A} (m : M S A) (h : exn -> option (M S A)) : M S A :=
  fun s =>
    match m s with
    | (Ret a, s') => (Ret a, s')
    | (Raise e, s') =>
        match h e with
        | Some handler => handler s'
        | None => (Raise e, s')
        end
    end.

(** [for x in l: body x]. *)
Fixpoint for_each {S X} (l : list X) (body : X -> M S unit) : M S unit :=
  match l with
  | [] => ret tt
  | x :: l' => body x ;;; for_each l' body
  end.

(** The world after some more actions. *)
Definition log (w : world) (es : list event) : world :=
  {| http := http w; redis_ping_exn := redis_ping_exn w;
     redis_cmd_exn := redis_cmd_exn w; store := store w;
     trace := trace w ++ es |}.

Definition emit (e : event) : M world unit := fun w => (Ret tt, log w [e]).

Definition print (text : string) : M world unit := emit (Print text).

(** [exit(code)] raises [SystemExit]. *)
Definition py_exit {S A} (code : Z) : M S A := raise (SystemExit code).

(** *** The [requests] library *)

Definition requests_get (url : string) : M world response :=
  emit (HttpGet url) ;;;
  fun w => (http w url, w).

(** [Response.raise_for_status]: an [HTTPError] for the client and
    server error classes, nothing otherwise. *)
Definition raise_for_status (r : response) : result unit :=
  if (400 <=? status_code r) && (status_code r <? 600)
  then Raise (HTTPError (status_code r)) else Ret tt.

(** *** The [redis] client *)

Record Redis : Type := {
  host : string;
  port : Z;
  decode_responses : bool
}.

Definition redis_ping (c : Redis) : M world unit :=
  emit (RedisPing (host c) (port c)) ;;;
  fun w =>
    match redis_ping_exn w with
    | Some e => (Raise e, w)
    | None => (Ret tt, w)
    end.

(** The world after [text] was stored under [key]. *)
Definition put (w : world) (key text : string) : world :=
  {| http := http w; redis_ping_exn := redis_ping_exn w;
     redis_cmd_exn := redis_cmd_exn w; store := <[key := text]> (store w);
     trace := trace w |}.

Definition redis_set (c : Redis) (key text : string) : M world unit :=
  emit (RedisSet key text) ;;;
  fun w =>
    match redis_cmd_exn w with
    | Some e => (Raise e, w)
    | None => (Ret tt, put w key text)
    end.

Definition redis_get (c : Redis) (key : string) : M world (option string) :=
  emit (RedisGet key) ;;;
  fun w =>
    match redis_cmd_exn w with
    | Some e => (Raise e, w)
    | None => (Ret (store w !! key), w)
    end.

(** *** [matplotlib.pyplot]

    Every call is recorded with the arguments the script gives it.  An
    exception raised inside the library (a label that its text engine
    rejects, a path that cannot be written) is outside the model: a
    theorem that needs the chart operation to return says so as a
    hypothesis. *)

Definition plt (e : event) : M world unit := emit e.

Definition bars_of (heights : list Z) : list bar :=
  map (fun ih => {| bar_center := fst ih; bar_height := snd ih |})
      (combine (seq 0 (length heights)) heights).

Definition plt_bar (keys : list value) (heights : list Z) (color : list string)
  : M world (list bar) :=
  emit (PltBar keys heights color) ;;; ret (bars_of heights).

(** ** class APICharacterRetriever *)

Record APICharacterRetriever : Type := {
  endpoint_url : string
}.

Definition APICharacterRetriever_init (endpoint_url : string) : APICharacterRetriever :=
  {| endpoint_url := endpoint_url |}.

Definition get_characters (self : APICharacterRetriever) : M world value :=
  response <- requests_get (endpoint_url self) ;;
  if status_code response =? 200
  then lift_result (let? body := json response in getitem body "results")
  else (lift_result (raise_for_status response) ;;; ret VNone).

(** ** class RedisDataHandler *)

Record RedisDataHandler : Type := {
  redis_client : Redis
}.

Definition ping (self : RedisDataHandler) : M world unit :=
  try_except (redis_ping (redis_client self))
    (fun error =>
       match error with
       | RedisConnectionError msg =>
           Some (print ("Unable to connect to Redis: " +:+ msg) ;;; py_exit 1)
       | _ => None
       end).

Definition RedisDataHandler_init (redis_host : string) (redis_port : Z)
  : M world RedisDataHandler :=
  let self :=
    {| redis_client := {| host := redis_host; port := redis_port; decode_responses := true |} |} in
  ping self ;;; ret self.

Definition save_data (self : RedisDataHandler) (key : string) (v : value) : M world value :=
  redis_set (redis_client self) key (json_dumps v) ;;; ret VNone.

Definition load_data (self : RedisDataHandler) (key : string) : M world value :=
  data <- redis_get (redis_client self) key ;;
  match data with
  | Some (String c s) => lift_result (json_loads (String c s))
  | Some EmptyString => ret VNone
  | None => ret VNone
  end.

(** ** class CharacterDataProcessor *)

Record CharacterDataProcessor : Type := {
  data : value
}.

Definition CharacterDataProcessor_init (data : value) : CharacterDataProcessor :=
  {| data := data |}.

(** A method runs on the pair of its object and the world. *)
Definition method (A : Type) : Type := M (CharacterDataProcessor * world) A.

Definition get_self : method CharacterDataProcessor :=
  fun s => (Ret (fst s), s).

Definition in_world {A} (m : M world A) : method A :=
  fun s => let (r, w) := m (snd s) in (r, (fst s, w)).

(** Calling a method of a freshly bound object [o]. *)
Definition call_on {A} (o : CharacterDataProcessor) (m : method A) : M world A :=
  fun w => let (r, s) := m (o, w) in (r, snd s).

Definition default_save_path : string := "status_distribution.png".

(** [Counter(character['status'] for character in self.data)]. *)
Definition status_distribution_of (self : CharacterDataProcessor) : result Counter :=
  let? characters := iter_value (data self) in
  counter_update (fun character => getitem character "status") characters [].

Definition display_status_distribution (save_path : string) : method value :=
  self <- get_self ;;
  status_distribution <- lift_result (status_distribution_of self) ;;
  in_world (plt (PltFigure 10 6)) ;;;
  bars <- in_world (plt_bar (counter_keys status_distribution)
                            (counter_values status_distribution)
                            ["blue"; "green"; "red"]) ;;
  in_world (plt (PltXlabel "Character Status" 14)) ;;;
  in_world (plt (PltYlabel "Count" 14)) ;;;
  in_world (plt (PltTitle "Distribution of Character Statuses in Rick and Morty" 16)) ;;;
  in_world (plt (PltXticks 12)) ;;;
  in_world (plt (PltYticks 12)) ;;;
  for_each bars (fun b =>
    let yval := bar_height b in
    in_world (plt (PltText (bar_center b) yval yval))) ;;;
  in_world (plt (PltSavefig save_path)) ;;;
  in_world (plt PltShow) ;;;
  ret VNone.

Definition species_line (character : value) : result string :=
  let? name := getitem character "name" in
  let? status := getitem character "status" in
  Ret ("- " +:+ py_str name +:+ " (" +:+ py_str status +:+ ")").

(** [[character for character in self.data
      if character['species'].lower() == target_species.lower()]]. *)
Definition species_matches_of (self : CharacterDataProcessor) (target_species : string)
  : result (list value) :=
  let? characters := iter_value (data self) in
  comprehension
    (fun character =>
       let? species := getitem character "species" in
       let? low := py_lower species in
       Ret (String.eqb low (lower target_species)))
    characters.

Definition show_characters_by_species (target_species : string) : method value :=
  self <- get_self ;;
  species_matches <- lift_result (species_matches_of self target_species) ;;
  in_world (print (nl +:+ "List of '" +:+ target_species +:+ "' characters:")) ;;;
  for_each species_matches (fun character =>
    line <- lift_result (species_line character) ;;
    in_world (print line)) ;;;
  ret VNone.

Definition name_line (character : value) : result string :=
  let? name := getitem character "name" in
  let? species := getitem character "species" in
  Ret ("- " +:+ py_str name +:+ " (" +:+ py_str species +:+ ")").

(** [[character for character in self.data
      if search_term.lower() in character['name'].lower()]]. *)
Definition name_matches_of (self : CharacterDataProcessor) (search_term : string)
  : result (list value) :=
  let? characters := iter_value (data self) in
  comprehension
    (fun character =>
       let? name := getitem character "name" in
       let? low := py_lower name in
       Ret (contains low (lower search_term)))
    characters.

Definition find_characters_by_name (search_term : string) : method value :=
  self <- get_self ;;
  name_matches <- lift_result (name_matches_of self search_term) ;;
  match name_matches with
  | [] =>
      in_world (print ("No characters found with '" +:+ search_term +:+ "' in their name.")) ;;;
      ret VNone
  | _ :: _ =>
      in_world (print (nl +:+ "Characters containing '" +:+ search_term +:+ "' in their name:")) ;;;
      for_each name_matches (fun character =>
        line <- lift_result (name_line character) ;;
        in_world (print line)) ;;;
      ret VNone
  end.

Definition process_data : method value :=
  display_status_distribution default_save_path ;;;
  show_characters_by_species "Human" ;;;
  find_characters_by_name "Morty" ;;;
  ret VNone.

(** ** class WorkflowExecutor *)

Record WorkflowExecutor : Type := {
  api_endpoint : string;
  redis_key : string
}.

Definition WorkflowExecutor_init (api_endpoint redis_key : string) : WorkflowExecutor :=
  {| api_endpoint := api_endpoint; redis_key := redis_key |}.

Definition execute (self : WorkflowExecutor) : M world value :=
  let character_retriever := APICharacterRetriever_init (api_endpoint self) in
  character_data <- get_characters character_retriever ;;
  redis_handler <- RedisDataHandler_init "localhost" 6379 ;;
  save_data redis_handler (redis_key self) character_data ;;;
  let data_processor := CharacterDataProcessor_init character_data in
  call_on data_processor process_data ;;;
  ret VNone.

(** The script: [if __name__ == "__main__": ...]. *)
Definition main : M world value :=
  let api_endpoint := "https://rickandmortyapi.com/api/character" in
  let redis_key := "rickandmorty:characters" in
  let executor := WorkflowExecutor_init api_endpoint redis_key in
  execute executor.

(** The exit status of the interpreter: 0 at the end of the script,
    the code of an uncaught [SystemExit], 1 after any other uncaught
    exception. *)
Definition exit_status {A} (r : result A) : Z :=
  match r with
  | Ret _ => 0
  | Raise (SystemExit code) => code
  | Raise _ => 1
  end.

(** ** Vocabulary of the specification *)

(** A record is a dictionary whose [name], [status] and [species] are
    strings; it may have any other field. *)
Definition is_record (c : value) : bool :=
  match getitem c "name", getitem c "status", getitem c "species" with
  | Ret (VStr _), Ret (VStr _), Ret (VStr _) => true
  | _, _, _ => false
  end.

Definition records_ok (records : list value) : bool := forallb is_record records.

(** The text of a field of a record. *)
Definition field (k : string) (c : value) : string :=
  match getitem c k with
  | Ret (VStr s) => s
  | _ => ""
  end.

(** Equality and containment of texts, letter case ignored. *)
Definition eq_ignoring_case (s t : string) : bool := String.eqb (lower s) (lower t).
Definition contains_ignoring_case (s t : string) : bool := contains (lower s) (lower t).

Definition has_species (t : string) (c : value) : bool :=
  eq_ignoring_case (field "species" c) t.

Definition name_has (t : string) (c : value) : bool :=
  contains_ignoring_case (field "name" c) t.

(** The distinct elements of a list, each at the place of its first
    occurrence. *)
Fixpoint distinct (l : list string) : list string :=
  match l with
  | [] => []
  | x :: l' => x :: List.filter (fun y => negb (String.eqb x y)) (distinct l')
  end.

Fixpoint occurrences (x : string) (l : list string) : nat :=
  match l with
  | [] => O
  | y :: l' => (if String.eqb y x then 1 else 0) + occurrences x l'
  end.

Definition sum_Z (l : list Z) : Z := fold_right Z.add 0 l.

(** The distribution of a list of statuses: one entry per distinct
    status, in order of first occurrence, with its number of
    occurrences. *)
Definition distribution (statuses : list string) : Counter :=
  map (fun s => (VStr s, Z.of_nat (occurrences s statuses))) (distinct statuses).

(** What each report prints or draws. *)
Definition chart_events (c : Counter) (save_path : string) : list event :=
  [PltFigure 10 6;
   PltBar (counter_keys c) (counter_values c) ["blue"; "green"; "red"];
   PltXlabel "Character Status" 14;
   PltYlabel "Count" 14;
   PltTitle "Distribution of Character Statuses in Rick and Morty" 16;
   PltXticks 12;
   PltYticks 12]
  ++ map (fun b => PltText (bar_center b) (bar_height b) (bar_height b))
         (bars_of (counter_values c))
  ++ [PltSavefig save_path; PltShow].

Definition species_text (c : value) : string :=
  "- " +:+ field "name" c +:+ " (" +:+ field "status" c +:+ ")".

Definition species_events (records : list value) (t : string) : list event :=
  Print (nl +:+ "List of '" +:+ t +:+ "' characters:")
  :: map (fun c => Print (species_text c)) (List.filter (has_species t) records).

Definition name_text (c : value) : string :=
  "- " +:+ field "name" c +:+ " (" +:+ field "species" c +:+ ")".

Definition name_events (records : list value) (t : string) : list event :=
  match List.filter (name_has t) records with
  | [] => [Print ("No characters found with '" +:+ t +:+ "' in their name.")]
  | found =>
      Print (nl +:+ "Characters containing '" +:+ t +:+ "' in their name:")
      :: map (fun c => Print (name_text c)) found
  end.

Definition mem (x : string) (l : list string) : bool := existsb (String.eqb x) l.

Fixpoint distinct_keys (l : list string) : bool :=
  match l with
  | [] => true
  | x :: l' => negb (mem x l') && distinct_keys l'
  end.

(** The values that exist as Python objects: no dictionary has two
    entries with the same key. *)
Fixpoint wf_value (v : value) : bool :=
  match v with
  | VList l => forallb wf_value l
  | VDict d => distinct_keys (map fst d) && forallb (fun kv => wf_value (snd kv)) d
  | _ => true
  end.

(** A text in front of which a number literal ends: it does not go on
    with a digit, a fraction or an exponent. *)
Definition delimited (s : string) : bool :=
  match s with
  | String c _ => negb (is_digit c) && negb (starts_float_part s)
  | EmptyString => true
  end.

(** The actions of a report: printing and drawing. *)
Definition is_report_event (e : event) : bool :=
  match e with
  | HttpGet _ | RedisPing _ _ | RedisSet _ _ | RedisGet _ => false
  | _ => true
  end.

(** A method that never changes the object it runs on. *)
Definition keeps_self {A} (m : method A) : Prop :=
  forall self w, fst (snd (m (self, w))) = self.

(** A method that leaves its object alone and whose result and actions
    depend on the object only, the actions being report actions. *)
Definition reports {A} (m : method A) : Prop :=
  forall o, exists r es,
    forallb is_report_event es = true /\
    forall w, m (o, w) = (r, (o, log w es)).

(** One entry of a serialised dictionary. *)
Definition json_member (kv : string * value) : string :=
  json_encode_string (fst kv) +:+ ": " +:+ json_dumps (snd kv).

(** An optional space in front of a text. *)
Definition blank (sp : bool) : string := if sp then " " else "".

(** What the round trip of one value says. *)
Definition scans (v : value) : Prop :=
  wf_value v = true ->
  forall fuel rest,
    (String.length (json_dumps v) <= fuel)%nat ->
    delimited rest = true ->
    scan_value fuel (json_dumps v +:+ rest) = Some (v, rest).

(** A text made of printable ASCII characters (codes 32 to 126) only. *)
Fixpoint printable (s : string) : bool :=
  match s with
  | EmptyString => true
  | String c s' => ((32 <=? N_of_ascii c) && (N_of_ascii c <=? 126))%N && printable s'
  end.

(** ** Fixtures *)

Definition rick : value :=
  VDict [("id", VInt 1); ("name", VStr "Rick Sanchez");
         ("status", VStr "Alive"); ("species", VStr "Human")].

Definition morty : value :=
  VDict [("id", VInt 2); ("name", VStr "Morty Smith");
         ("status", VStr "Alive"); ("species", VStr "Human")].

Definition abadango : value :=
  VDict [("id", VInt 6); ("name", VStr "Abadango Cluster Princess");
         ("status", VStr "unknown"); ("species", VStr "Alien")].

Definition fixture : list value := [rick; abadango; morty].

Definition answer (code : Z) (body : value) : response :=
  {| status_code := code; body := Some body |}.

(** A world whose API answers every request with [r] and whose Redis
    server is up and empty. *)
Definition world_with (r : response) : world :=
  {| http := fun _ => Ret r; redis_ping_exn := None; redis_cmd_exn := None;
     store := ∅; trace := [] |}.

Definition page : value :=
  VDict [("info", VDict [("count", VInt 3)]); ("results", VList fixture)].

Definition quiet_world : world := world_with (answer 200 page).

(** A world whose Redis server refuses the connection. *)
Definition world_without_redis : world :=
  {| http := http quiet_world;
     redis_ping_exn := Some (RedisConnectionError "Error 111 connecting to localhost:6379. Connection refused.");
     redis_cmd_exn := Some (RedisConnectionError "Error 111 connecting to localhost:6379. Connection refused.");
     store := ∅; trace := [] |}.

(** * Properties *)

(** ** The trace *)

Lemma log_nil w : log w [] = w.
Proof. destruct w; unfold log; simpl. by rewrite app_nil_r. Qed.

Lemma log_app w es es' : log (log w es) es' = log w (es ++ es').
Proof. unfold log; simpl. by rewrite app_assoc. Qed.

Lemma trace_log w es : trace (log w es) = trace w ++ es.
Proof. reflexivity. Qed.

Lemma store_log w es : store (log w es) = store w.
Proof. reflexivity. Qed.

(** ** Records *)

Lemma is_record_fields c :
  is_record c = true ->
  getitem c "name" = Ret (VStr (field "name" c)) /\
  getitem c "status" = Ret (VStr (field "status" c)) /\
  getitem c "species" = Ret (VStr (field "species" c)).
Proof.
  unfold is_record, field.
  destruct (getitem c "name") as [[]|]; try discriminate;
  destruct (getitem c "status") as [[]|]; try discriminate;
  destruct (getitem c "species") as [[]|]; try discriminate; auto.
Qed.

Lemma records_ok_In records c :
  records_ok records = true -> In c records -> is_record c = true.
Proof.
  unfold records_ok. rewrite forallb_forall. auto.
Qed.

Lemma comprehension_filter {X} (cond : X -> result bool) (p : X -> bool) l :
  (forall x, In x l -> cond x = Ret (p x)) ->
  comprehension cond l = Ret (List.filter p l).
Proof.
  induction l as [|x l IH]; intros H; simpl; [reflexivity|].
  rewrite (H x) by (left; reflexivity). simpl.
  rewrite IH by (intros y Hy; apply H; right; exact Hy). simpl.
  destruct (p x); reflexivity.
Qed.

Lemma species_matches_records records t :
  records_ok records = true ->
  species_matches_of (CharacterDataProcessor_init (VList records)) t
  = Ret (List.filter (has_species t) records).
Proof.
  intros Hok. unfold species_matches_of. simpl.
  apply comprehension_filter. intros c Hc.
  destruct (is_record_fields c (records_ok_In _ _ Hok Hc)) as (_ & _ & Hs).
  rewrite Hs. reflexivity.
Qed.

Lemma name_matches_records records t :
  records_ok records = true ->
  name_matches_of (CharacterDataProcessor_init (VList records)) t
  = Ret (List.filter (name_has t) records).
Proof.
  intros Hok. unfold name_matches_of. simpl.
  apply comprehension_filter. intros c Hc.
  destruct (is_record_fields c (records_ok_In _ _ Hok Hc)) as (Hn & _ & _).
  rewrite Hn. reflexivity.
Qed.

Lemma species_line_record c :
  is_record c = true -> species_line c = Ret (species_text c).
Proof.
  intros H. destruct (is_record_fields c H) as (Hn & Hst & _).
  unfold species_line, species_text. rewrite Hn, Hst. reflexivity.
Qed.

Lemma name_line_record c :
  is_record c = true -> name_line c = Ret (name_text c).
Proof.
  intros H. destruct (is_record_fields c H) as (Hn & _ & Hsp).
  unfold name_line, name_text. rewrite Hn, Hsp. reflexivity.
Qed.

(** A loop that prints one line per element. *)
Lemma for_each_print (line : value -> result string) (text : value -> string) l self w :
  (forall c, In c l -> line c = Ret (text c)) ->
  for_each l (fun c => ln <- lift_result (line c) ;; in_world (print ln)) (self, w)
  = (Ret tt, (self, log w (map (fun c => Print (text c)) l))).
Proof.
  revert w. induction l as [|c l IH]; intros w H; simpl.
  - unfold ret. by rewrite log_nil.
  - unfold bind at 1. unfold bind at 1.
    rewrite (H c) by (left; reflexivity).
    unfold lift_result, in_world, print, emit. simpl.
    rewrite IH by (intros y Hy; apply H; right; exact Hy).
    by rewrite log_app.
Qed.

Lemma filter_records_ok (p : value -> bool) records c :
  records_ok records = true -> In c (List.filter p records) -> is_record c = true.
Proof.
  intros Hok Hc. apply filter_In in Hc. destruct Hc as [Hc _].
  eapply records_ok_In; eauto.
Qed.

Lemma show_characters_by_species_run records t w :
  records_ok records = true ->
  show_characters_by_species t (CharacterDataProcessor_init (VList records), w)
  = (Ret VNone,
     (CharacterDataProcessor_init (VList records), log w (species_events records t))).
Proof.
  intros Hok. unfold show_characters_by_species.
  unfold bind at 1. unfold get_self at 1. cbn [fst snd].
  unfold bind at 1. rewrite species_matches_records by exact Hok.
  unfold lift_result at 1.
  unfold bind at 1. unfold in_world at 1, print at 1, emit at 1. cbn [fst snd].
  unfold bind at 1.
  rewrite (for_each_print species_line species_text).
  - unfold ret. rewrite log_app. reflexivity.
  - intros c Hc. apply species_line_record. eapply filter_records_ok; eauto.
Qed.

Lemma find_characters_by_name_run records t w :
  records_ok records = true ->
  find_characters_by_name t (CharacterDataProcessor_init (VList records), w)
  = (Ret VNone,
     (CharacterDataProcessor_init (VList records), log w (name_events records t))).
Proof.
  intros Hok. unfold find_characters_by_name, name_events.
  unfold bind at 1. unfold get_self at 1. cbn [fst snd].
  unfold bind at 1. rewrite name_matches_records by exact Hok.
  unfold lift_result at 1.
  pose proof (filter_records_ok (name_has t) records) as Hrec.
  destruct (List.filter (name_has t) records) as [|c found]; [reflexivity|].
  unfold bind at 1. unfold in_world at 1, print at 1, emit at 1. cbn [fst snd].
  unfold bind at 1.
  rewrite (for_each_print name_line name_text).
  - unfold ret. rewrite log_app. reflexivity.
  - intros c' Hc. apply name_line_record. apply Hrec; assumption.
Qed.

(** ** Texts *)

Lemma prefix_iff n h :
  String.prefix n h = true <-> exists post, h = n +:+ post.
Proof.
  revert h. induction n as [|c n IH]; intros h.
  - split; [intros _; exists h; reflexivity | intros _; destruct h; reflexivity].
  - destruct h as [|c' h]; simpl.
    + split; [discriminate | intros [post Hp]; discriminate].
    + destruct (Ascii.ascii_dec c c') as [->|Hne].
      * rewrite IH. split; intros [post Hp]; exists post.
        -- simpl. by rewrite Hp.
        -- simpl in Hp. by inversion Hp.
      * split; [discriminate|]. intros [post Hp]. simpl in Hp.
        inversion Hp. congruence.
Qed.

(** [contains h n] holds exactly when [n] occurs in [h]. *)
Lemma contains_iff h n :
  contains h n = true <-> exists pre post, h = pre +:+ n +:+ post.
Proof.
  induction h as [|c h IH]; cbn [contains].
  - rewrite orb_false_r, prefix_iff. split.
    + intros [post Hp]. exists "", post. exact Hp.
    + intros (pre & post & Hp). destruct pre; [exists post; exact Hp|discriminate].
  - rewrite orb_true_iff, prefix_iff, IH. split.
    + intros [[post Hp] | (pre & post & Hp)].
      * exists "", post. exact Hp.
      * exists (String c pre), post. simpl. by rewrite Hp.
    + intros (pre & post & Hp). destruct pre as [|c' pre].
      * left. exists post. exact Hp.
      * right. simpl in Hp. inversion Hp. by exists pre, post.
Qed.

Lemma contains_empty h : contains h "" = true.
Proof. destruct h; reflexivity. Qed.

Lemma filter_sublist {X} (p : X -> bool) (l : list X) : sublist (List.filter p l) l.
Proof.
  induction l as [|x l IH]; simpl.
  - constructor.
  - destruct (p x); by constructor.
Qed.

Lemma filter_all {X} (p : X -> bool) (l : list X) :
  (forall x, In x l -> p x = true) -> List.filter p l = l.
Proof.
  induction l as [|x l IH]; intros H; simpl; [reflexivity|].
  rewrite (H x) by (left; reflexivity).
  f_equal. apply IH. intros y Hy. apply H. by right.
Qed.

(** ** The species filter *)

(** C1 (as the code has it).  For every list of records and every
    target [t], [show_characters_by_species] selects exactly the records
    whose species equals [t] letter case ignored, in input order (a
    sub-sequence of the input), prints a header naming [t] followed by
    one line per selected record, and returns [None]: the selected
    records are printed, not returned.  The targets "Human", "human" and
    "HUMAN" select the same records of any data. *)
Theorem show_characters_by_species_selects (records : list value) (t : string) (w : world) :
  records_ok records = true ->
  let self := CharacterDataProcessor_init (VList records) in
  let found := List.filter (has_species t) records in
  species_matches_of self t = Ret found
  /\ sublist found records
  /\ (forall c, In c found <-> In c records /\ lower (field "species" c) = lower t)
  /\ show_characters_by_species t (self, w)
     = (Ret VNone,
        (self, log w (Print (nl +:+ "List of '" +:+ t +:+ "' characters:")
                      :: map (fun c => Print (species_text c)) found)))
  /\ (forall d, species_matches_of d "human" = species_matches_of d "Human"
             /\ species_matches_of d "HUMAN" = species_matches_of d "Human").
Proof.
  intros Hok self found. split; [|split; [|split; [|split]]].
  - by apply species_matches_records.
  - apply filter_sublist.
  - intros c. unfold found. rewrite filter_In.
    unfold has_species, eq_ignoring_case. by rewrite String.eqb_eq.
  - by apply show_characters_by_species_run.
  - intros d. split; reflexivity.
Qed.

Lemma show_characters_by_species_selects_witness :
  records_ok fixture = true /\
  species_matches_of (CharacterDataProcessor_init (VList fixture)) "hUmAn" = Ret [rick; morty].
Proof.
  split; [reflexivity|].
  destruct (show_characters_by_species_selects fixture "hUmAn" quiet_world eq_refl) as [H _].
  exact H.
Defined.

(** C1 as stated fails: on the fixture the call returns [None], not the
    two matching records. *)
Lemma show_characters_by_species_returns_None :
  fst (show_characters_by_species "Human"
         (CharacterDataProcessor_init (VList fixture), quiet_world)) = Ret VNone
  /\ fst (show_characters_by_species "Human"
            (CharacterDataProcessor_init (VList fixture), quiet_world))
     <> Ret (VList (List.filter (has_species "Human") fixture)).
Proof.
  split; [reflexivity|]. vm_compute. discriminate.
Qed.

(** ** The name search *)

(** C3 (as the code has it).  For every list of records and every
    search term [t], [find_characters_by_name] selects the records whose
    name contains [t] letter case ignored, in input order; when none
    matches it prints the single not-found message, otherwise a header
    and one line per selected record.  In both cases it returns [None]
    and raises nothing. *)
Theorem find_characters_by_name_selects (records : list value) (t : string) (w : world) :
  records_ok records = true ->
  let self := CharacterDataProcessor_init (VList records) in
  let found := List.filter (name_has t) records in
  name_matches_of self t = Ret found
  /\ sublist found records
  /\ (forall c, In c found <->
                In c records /\
                exists pre post, lower (field "name" c) = pre +:+ lower t +:+ post)
  /\ (found = [] ->
      find_characters_by_name t (self, w)
      = (Ret VNone,
         (self, log w [Print ("No characters found with '" +:+ t +:+ "' in their name.")])))
  /\ (found <> [] ->
      find_characters_by_name t (self, w)
      = (Ret VNone,
         (self, log w (Print (nl +:+ "Characters containing '" +:+ t +:+ "' in their name:")
                       :: map (fun c => Print (name_text c)) found)))).
Proof.
  intros Hok self found.
  assert (Hrun := find_characters_by_name_run records t w Hok).
  unfold name_events in Hrun. fold found in Hrun.
  split; [|split; [|split; [|split]]].
  - by apply name_matches_records.
  - apply filter_sublist.
  - intros c. unfold found. rewrite filter_In.
    unfold name_has, contains_ignoring_case. by rewrite contains_iff.
  - intros Hnil. rewrite Hnil in Hrun. exact Hrun.
  - intros Hne. destruct found; [congruence | exact Hrun].
Qed.

Lemma find_characters_by_name_selects_witness :
  records_ok fixture = true /\
  name_matches_of (CharacterDataProcessor_init (VList fixture)) "morty" = Ret [morty].
Proof.
  split; [reflexivity|].
  destruct (find_characters_by_name_selects fixture "morty" quiet_world eq_refl) as [H _].
  exact H.
Defined.

(** C3 as stated fails: when nothing matches, the call returns [None],
    not an empty sequence. *)
Lemma find_characters_by_name_returns_None :
  List.filter (name_has "zzz") fixture = []
  /\ fst (find_characters_by_name "zzz"
            (CharacterDataProcessor_init (VList fixture), quiet_world)) = Ret VNone
  /\ fst (find_characters_by_name "zzz"
            (CharacterDataProcessor_init (VList fixture), quiet_world)) <> Ret (VList []).
Proof.
  split; [reflexivity|]. split; [reflexivity|]. vm_compute. discriminate.
Qed.

(** C10.  For every non-empty list of records, the name search with the
    empty term selects every record: it prints the header and one line
    per record, in input order, and never the not-found message. *)
Theorem find_characters_by_name_empty_term (records : list value) (w : world) :
  records_ok records = true ->
  records <> [] ->
  let self := CharacterDataProcessor_init (VList records) in
  let printed :=
    Print (nl +:+ "Characters containing '' in their name:")
    :: map (fun c => Print (name_text c)) records in
  name_matches_of self "" = Ret records
  /\ find_characters_by_name "" (self, w) = (Ret VNone, (self, log w printed))
  /\ ~ In (Print "No characters found with '' in their name.") printed.
Proof.
  intros Hok Hne self printed.
  assert (Hall : List.filter (name_has "") records = records).
  { apply filter_all. intros c _. unfold name_has, contains_ignoring_case.
    apply contains_empty. }
  split; [|split].
  - unfold self. rewrite name_matches_records by exact Hok. by rewrite Hall.
  - unfold self. rewrite find_characters_by_name_run by exact Hok.
    unfold name_events. rewrite Hall. destruct records; [congruence|reflexivity].
  - unfold printed. intros [H|H]; [discriminate|].
    apply in_map_iff in H. destruct H as (c & H & _). discriminate.
Qed.

Lemma find_characters_by_name_empty_term_witness :
  records_ok fixture = true /\ fixture <> [] /\
  name_matches_of (CharacterDataProcessor_init (VList fixture)) "" = Ret fixture.
Proof.
  split; [reflexivity|]. split; [discriminate|].
  destruct (find_characters_by_name_empty_term fixture quiet_world eq_refl
              ltac:(discriminate)) as [H _].
  exact H.
Defined.

(** ** The status distribution *)

Lemma mem_In x l : mem x l = true <-> In x l.
Proof.
  unfold mem. rewrite existsb_exists. split.
  - intros (y & Hy & He). apply String.eqb_eq in He. by subst.
  - intros H. exists x. split; [exact H | apply String.eqb_refl].
Qed.

Lemma mem_not_In x l : mem x l = false <-> ~ In x l.
Proof.
  rewrite <- mem_In. destruct (mem x l); split; congruence.
Qed.

Lemma occurrences_app x l l' :
  occurrences x (l ++ l') = (occurrences x l + occurrences x l')%nat.
Proof.
  induction l as [|y l IH]; simpl; [reflexivity|]. rewrite IH. lia.
Qed.

Lemma occurrences_not_In x l : ~ In x l -> occurrences x l = O.
Proof.
  induction l as [|y l IH]; simpl; intros H; [reflexivity|].
  destruct (String.eqb_spec y x) as [->|Hne].
  - exfalso. apply H. by left.
  - apply IH. intros Hx. apply H. by right.
Qed.

Lemma distinct_In x l : In x (distinct l) <-> In x l.
Proof.
  induction l as [|y l IH]; simpl; [reflexivity|].
  rewrite filter_In, IH, negb_true_iff.
  destruct (String.eqb_spec y x) as [->|Hne]; intuition congruence.
Qed.

Lemma distinct_NoDup l : NoDup (distinct l).
Proof.
  induction l as [|y l IH]; simpl; constructor.
  - rewrite list_elem_of_In, filter_In, negb_true_iff, String.eqb_refl. intros [_ H]. discriminate.
  - apply NoDup_ListNoDup. apply List.NoDup_filter. by apply NoDup_ListNoDup.
Qed.

(** Reading the list from left to right, a status joins the distinct
    ones, at the end, the first time it is met. *)
Lemma distinct_snoc l x :
  distinct (l ++ [x]) = if mem x l then distinct l else distinct l ++ [x].
Proof.
  induction l as [|y l IH]; simpl; [reflexivity|].
  rewrite IH. unfold mem; simpl. fold (mem x l).
  rewrite (String.eqb_sym x y).
  destruct (String.eqb_spec y x) as [->|Hne]; simpl.
  - destruct (mem x l); [reflexivity|].
    rewrite List.filter_app. simpl. rewrite String.eqb_refl. simpl.
    by rewrite app_nil_r.
  - destruct (mem x l); [reflexivity|].
    rewrite List.filter_app. simpl.
    destruct (String.eqb_spec y x); [congruence|]. reflexivity.
Qed.

Lemma mem_distinct x l : mem x (distinct l) = mem x l.
Proof.
  destruct (mem x l) eqn:H.
  - apply mem_In. apply distinct_In. by apply mem_In.
  - apply mem_not_In. rewrite distinct_In. by apply mem_not_In.
Qed.

Lemma counter_incr_map x (cnt : string -> Z) ks :
  NoDup ks ->
  counter_incr (VStr x) (map (fun s => (VStr s, cnt s)) ks)
  = if mem x ks
    then map (fun s => (VStr s, if String.eqb s x then cnt s + 1 else cnt s)) ks
    else map (fun s => (VStr s, cnt s)) ks ++ [(VStr x, 1)].
Proof.
  induction ks as [|k ks IH]; intros Hnd; [reflexivity|].
  apply NoDup_cons in Hnd. destruct Hnd as [Hk Hnd].
  cbn [map counter_incr key_eqb]. unfold mem; cbn [existsb]. fold (mem x ks).
  rewrite (String.eqb_sym x k).
  destruct (String.eqb_spec k x) as [->|Hne]; cbn [orb].
  - f_equal. apply map_ext_in. intros s Hs.
    destruct (String.eqb_spec s x) as [->|]; [|reflexivity].
    exfalso. apply Hk. by apply list_elem_of_In.
  - rewrite IH by exact Hnd. destruct (mem x ks); reflexivity.
Qed.

Lemma distribution_snoc seen x :
  counter_incr (VStr x) (distribution seen) = distribution (seen ++ [x]).
Proof.
  unfold distribution.
  rewrite (counter_incr_map x (fun s => Z.of_nat (occurrences s seen))) by apply distinct_NoDup.
  rewrite distinct_snoc, mem_distinct.
  destruct (mem x seen) eqn:Hmem.
  - apply map_ext. intros s. rewrite occurrences_app. simpl.
    rewrite (String.eqb_sym x s). destruct (String.eqb s x); f_equal; lia.
  - apply mem_not_In in Hmem. rewrite map_app. simpl. f_equal.
    + apply map_ext_in. intros s Hs. rewrite occurrences_app. simpl.
      destruct (String.eqb_spec x s) as [->|Hne].
      * exfalso. apply Hmem. by apply distinct_In.
      * f_equal. f_equal. lia.
    + rewrite occurrences_app. simpl. rewrite String.eqb_refl.
      rewrite (occurrences_not_In x seen) by exact Hmem. reflexivity.
Qed.

Lemma counter_update_records records seen :
  records_ok records = true ->
  counter_update (fun character => getitem character "status") records (distribution seen)
  = Ret (distribution (seen ++ map (field "status") records)).
Proof.
  revert seen. induction records as [|c records IH]; intros seen Hok; simpl.
  - by rewrite app_nil_r.
  - unfold records_ok in Hok. simpl in Hok. apply andb_true_iff in Hok.
    destruct Hok as [Hc Hok].
    destruct (is_record_fields c Hc) as (_ & Hst & _).
    rewrite Hst. simpl. rewrite distribution_snoc.
    rewrite IH by exact Hok. by rewrite <- app_assoc.
Qed.

Lemma counter_incr_sum k c :
  sum_Z (counter_values (counter_incr k c)) = sum_Z (counter_values c) + 1.
Proof.
  induction c as [|[k' n] c IH]; simpl; [reflexivity|].
  destruct (key_eqb k' k); simpl.
  - unfold sum_Z, counter_values. lia.
  - unfold sum_Z, counter_values in *. simpl. lia.
Qed.

Lemma distribution_sum l :
  sum_Z (counter_values (distribution l)) = Z.of_nat (length l).
Proof.
  induction l as [|x l IH] using rev_ind; [reflexivity|].
  rewrite <- distribution_snoc, counter_incr_sum, IH, length_app. simpl. lia.
Qed.

Lemma status_distribution_records records :
  records_ok records = true ->
  status_distribution_of (CharacterDataProcessor_init (VList records))
  = Ret (distribution (map (field "status") records)).
Proof.
  intros Hok. unfold status_distribution_of. simpl.
  exact (counter_update_records records [] Hok).
Qed.

(** C4.  For every list of records, the status distribution has one
    key per distinct status of the list, each exactly once and in order
    of first occurrence, mapped to the number of records with that
    status; the counts add up to the number of records.  This is the
    counter that [display_status_distribution] computes before it
    draws. *)
Theorem status_distribution_counts (records : list value) :
  records_ok records = true ->
  let self := CharacterDataProcessor_init (VList records) in
  let statuses := map (field "status") records in
  status_distribution_of self = Ret (distribution statuses)
  /\ counter_keys (distribution statuses) = map VStr (distinct statuses)
  /\ NoDup (counter_keys (distribution statuses))
  /\ (forall s, In s (distinct statuses) <-> In s statuses)
  /\ (forall k n, In (k, n) (distribution statuses) <->
                  exists s, k = VStr s /\ In s statuses /\ n = Z.of_nat (occurrences s statuses))
  /\ sum_Z (counter_values (distribution statuses)) = Z.of_nat (length records)
  /\ (forall l x, distinct (l ++ [x]) = if mem x l then distinct l else distinct l ++ [x]).
Proof.
  intros Hok self statuses.
  assert (Hkeys : counter_keys (distribution statuses) = map VStr (distinct statuses)).
  { unfold counter_keys, distribution. rewrite map_map. reflexivity. }
  split; [|split; [|split; [|split; [|split; [|split]]]]].
  - by apply status_distribution_records.
  - exact Hkeys.
  - rewrite Hkeys. apply NoDup_fmap_2; [|apply distinct_NoDup].
    intros s s' H. by inversion H.
  - intros s. apply distinct_In.
  - intros k n. unfold distribution. rewrite in_map_iff. split.
    + intros (s & Heq & Hs). inversion Heq; subst. exists s.
      split; [reflexivity|]. split; [by apply distinct_In | reflexivity].
    + intros (s & -> & Hs & ->). exists s. split; [reflexivity | by apply distinct_In].
  - rewrite distribution_sum. unfold statuses. by rewrite length_map.
  - apply distinct_snoc.
Qed.

Lemma status_distribution_counts_witness :
  records_ok fixture = true /\
  status_distribution_of (CharacterDataProcessor_init (VList fixture))
  = Ret [(VStr "Alive", 2); (VStr "unknown", 1)].
Proof.
  split; [reflexivity|].
  destruct (status_distribution_counts fixture eq_refl) as [H _].
  exact H.
Defined.

(** ** The processor keeps its data *)

Lemma keeps_ret {A} (a : A) : keeps_self (ret a).
Proof. intros self w. reflexivity. Qed.

Lemma keeps_lift_result {A} (r : result A) : keeps_self (lift_result r).
Proof. intros self w. reflexivity. Qed.

Lemma keeps_get_self : keeps_self get_self.
Proof. intros self w. reflexivity. Qed.

Lemma keeps_in_world {A} (m : M world A) : keeps_self (in_world m).
Proof. intros self w. unfold in_world. simpl. by destruct (m w). Qed.

Lemma keeps_bind {A B} (m : method A) (k : A -> method B) :
  keeps_self m -> (forall a, keeps_self (k a)) -> keeps_self (bind m k).
Proof.
  intros Hm Hk self w. unfold bind. specialize (Hm self w).
  destruct (m (self, w)) as [[a|e] [self' w']]; simpl in *.
  - subst. apply Hk.
  - exact Hm.
Qed.

Lemma keeps_for_each {X} (l : list X) (body : X -> method unit) :
  (forall x, keeps_self (body x)) -> keeps_self (for_each l body).
Proof.
  intros Hb. induction l as [|x l IH]; simpl.
  - apply keeps_ret.
  - apply keeps_bind; auto.
Qed.

Create HintDb frame.
#[local] Hint Resolve keeps_ret keeps_lift_result keeps_get_self keeps_in_world
  keeps_bind keeps_for_each : frame.

Lemma keeps_display save_path : keeps_self (display_status_distribution save_path).
Proof. unfold display_status_distribution. auto 20 with frame. Qed.

Lemma keeps_show t : keeps_self (show_characters_by_species t).
Proof. unfold show_characters_by_species. auto 20 with frame. Qed.

Lemma keeps_find t : keeps_self (find_characters_by_name t).
Proof.
  unfold find_characters_by_name.
  apply keeps_bind; [auto with frame|]. intros self.
  apply keeps_bind; [auto with frame|]. intros [|c found]; auto 20 with frame.
Qed.

Lemma keeps_process_data : keeps_self process_data.
Proof.
  unfold process_data.
  apply keeps_bind; [apply keeps_display | intros _].
  apply keeps_bind; [apply keeps_show | intros _].
  apply keeps_bind; [apply keeps_find | intros _].
  apply keeps_ret.
Qed.

(** C9.  Every report operation leaves the data held by the processor
    as it was given at construction, whatever the data and whether or
    not the operation raises. *)
Theorem report_operations_keep_data (d : value) (save_path t : string) (w : world) :
  let self := CharacterDataProcessor_init d in
  data (fst (snd (display_status_distribution save_path (self, w)))) = d
  /\ data (fst (snd (show_characters_by_species t (self, w)))) = d
  /\ data (fst (snd (find_characters_by_name t (self, w)))) = d
  /\ data (fst (snd (process_data (self, w)))) = d.
Proof.
  intros self.
  rewrite (keeps_display save_path self w), (keeps_show t self w),
    (keeps_find t self w), (keeps_process_data self w).
  repeat split.
Qed.

(** ** The default report *)

(** The report once the chart is done: from the state [s1] in which the
    chart operation returned, the listing of the humans and the search
    for "Morty" follow. *)
Lemma process_data_after_chart records w v s1 :
  records_ok records = true ->
  display_status_distribution default_save_path
    (CharacterDataProcessor_init (VList records), w) = (Ret v, s1) ->
  process_data (CharacterDataProcessor_init (VList records), w)
  = (Ret VNone,
     (CharacterDataProcessor_init (VList records),
      log (snd s1) (species_events records "Human" ++ name_events records "Morty"))).
Proof.
  intros Hok Hchart.
  pose proof (keeps_display default_save_path
                (CharacterDataProcessor_init (VList records)) w) as Hself.
  rewrite Hchart in Hself. destruct s1 as [o w1]. cbn [fst snd] in Hself. subst o.
  unfold process_data.
  unfold bind at 1. rewrite Hchart.
  unfold bind at 1. rewrite show_characters_by_species_run by exact Hok.
  unfold bind at 1. rewrite find_characters_by_name_run by exact Hok.
  unfold ret. rewrite !log_app. reflexivity.
Qed.

(** C8.  The default report runs three operations and nothing else, in
    this order: the status distribution with its chart, saved under the
    default file name; the species filter for "Human"; the name search
    for "Morty".  Each starts where the previous one stopped, and an
    exception of one of them ends the report: on well-formed records,
    once the chart operation has returned, the listing and the search
    follow and the report returns. *)
Theorem process_data_sequence (records : list value) (w : world) (v : value)
    (s1 : CharacterDataProcessor * world) :
  records_ok records = true ->
  let self := CharacterDataProcessor_init (VList records) in
  display_status_distribution "status_distribution.png" (self, w) = (Ret v, s1) ->
  process_data (self, w)
  = (Ret VNone,
     (self, log (snd s1) (species_events records "Human" ++ name_events records "Morty")))
  /\ forall s,
      process_data s =
      match display_status_distribution "status_distribution.png" s with
      | (Raise e, s1) => (Raise e, s1)
      | (Ret _, s1) =>
          match show_characters_by_species "Human" s1 with
          | (Raise e, s2) => (Raise e, s2)
          | (Ret _, s2) =>
              match find_characters_by_name "Morty" s2 with
              | (Raise e, s3) => (Raise e, s3)
              | (Ret _, s3) => (Ret VNone, s3)
              end
          end
      end.
Proof.
  intros Hok self Hchart. split.
  - by apply (process_data_after_chart records w v s1).
  - intros s. unfold process_data, bind, ret, default_save_path.
    destruct (display_status_distribution _ s) as [[?|?] s']; [|reflexivity].
    destruct (show_characters_by_species _ s') as [[?|?] s2]; [|reflexivity].
    destruct (find_characters_by_name _ s2) as [[?|?] s3]; reflexivity.
Qed.

Lemma process_data_sequence_witness :
  records_ok fixture = true
  /\ display_status_distribution "status_distribution.png"
       (CharacterDataProcessor_init (VList fixture), quiet_world)
     = (Ret VNone,
        (CharacterDataProcessor_init (VList fixture),
         log quiet_world
           (chart_events [(VStr "Alive", 2); (VStr "unknown", 1)] "status_distribution.png")))
  /\ trace (snd (snd (process_data (CharacterDataProcessor_init (VList fixture), quiet_world))))
     = chart_events [(VStr "Alive", 2); (VStr "unknown", 1)] "status_distribution.png"
       ++ [Print (nl +:+ "List of 'Human' characters:");
           Print "- Rick Sanchez (Alive)"; Print "- Morty Smith (Alive)";
           Print (nl +:+ "Characters containing 'Morty' in their name:");
           Print "- Morty Smith (Human)"].
Proof.
  split; [reflexivity|]. split; [reflexivity|].
  destruct (process_data_sequence fixture quiet_world VNone
              (CharacterDataProcessor_init (VList fixture),
               log quiet_world
                 (chart_events [(VStr "Alive", 2); (VStr "unknown", 1)]
                    "status_distribution.png"))
              eq_refl eq_refl) as [H _].
  rewrite H. reflexivity.
Defined.

(** ** Fetching the characters *)

Lemma requests_get_run url w :
  requests_get url w = (http w url, log w [HttpGet url]).
Proof. reflexivity. Qed.

Lemma get_characters_run self w r :
  http w (endpoint_url self) = Ret r ->
  get_characters self w
  = (if status_code r =? 200
     then let? doc := json r in getitem doc "results"
     else let? _ := raise_for_status r in Ret VNone,
     log w [HttpGet (endpoint_url self)]).
Proof.
  intros Hr. unfold get_characters. unfold bind at 1.
  rewrite requests_get_run. cbn [http log]. rewrite Hr.
  destruct (status_code r =? 200); [reflexivity|].
  unfold bind, lift_result, ret. by destruct (raise_for_status r).
Qed.

Lemma get_characters_world self w :
  snd (get_characters self w) = log w [HttpGet (endpoint_url self)].
Proof.
  unfold get_characters. unfold bind at 1. rewrite requests_get_run. cbn [http log].
  destruct (http w (endpoint_url self)) as [r|e]; [|reflexivity].
  destruct (status_code r =? 200).
  - reflexivity.
  - unfold bind, lift_result, ret. by destruct (raise_for_status r).
Qed.

(** Where [get_characters] does what its documentation says: at status
    200 it returns the value at key [results] of the parsed JSON body,
    and at a status of the error classes 400 to 599 it raises an
    [HTTPError] carrying the status code, with no result; an [HTTPError]
    it raises always carries such a status. *)
Theorem get_characters_outcome (self : APICharacterRetriever) (w : world) (r : response) :
  http w (endpoint_url self) = Ret r ->
  let w' := log w [HttpGet (endpoint_url self)] in
  (status_code r = 200 ->
   forall d v, body r = Some (VDict d) -> dict_get "results" d = Some v ->
   get_characters self w = (Ret v, w'))
  /\ (400 <= status_code r < 600 ->
      get_characters self w = (Raise (HTTPError (status_code r)), w'))
  /\ (forall code, fst (get_characters self w) = Raise (HTTPError code) ->
      code = status_code r /\ 400 <= code < 600 /\ ~ (200 <= status_code r < 300)).
Proof.
  intros Hr w'. rewrite (get_characters_run self w r Hr). fold w'.
  split; [|split].
  - intros H200 d v Hb Hv. rewrite H200. simpl. unfold json. rewrite Hb. simpl.
    by rewrite Hv.
  - intros Herr. destruct (Z.eqb_spec (status_code r) 200) as [He|_]; [lia|].
    unfold raise_for_status.
    destruct (Z.leb_spec 400 (status_code r)); [|lia].
    destruct (Z.ltb_spec (status_code r) 600); [|lia]. reflexivity.
  - intros code. cbn [fst]. destruct (Z.eqb_spec (status_code r) 200) as [He|Hne].
    + unfold json. destruct (body r) as [doc|]; [|discriminate]. simpl.
      unfold getitem. destruct doc; try discriminate.
      destruct (dict_get "results" d); discriminate.
    + unfold raise_for_status.
      destruct (Z.leb_spec 400 (status_code r)); [|discriminate].
      destruct (Z.ltb_spec (status_code r) 600); [|discriminate].
      simpl. intros [= <-]. lia.
Qed.

Lemma get_characters_outcome_witness :
  http quiet_world "https://rickandmortyapi.com/api/character" = Ret (answer 200 page)
  /\ get_characters (APICharacterRetriever_init "https://rickandmortyapi.com/api/character")
       quiet_world
     = (Ret (VList fixture),
        log quiet_world [HttpGet "https://rickandmortyapi.com/api/character"]).
Proof.
  split; [reflexivity|].
  destruct (get_characters_outcome
              (APICharacterRetriever_init "https://rickandmortyapi.com/api/character")
              quiet_world (answer 200 page) eq_refl) as [H _].
  exact (H eq_refl _ _ eq_refl eq_refl).
Defined.

(** C2.  The claim is what the method documents (it returns the list or
    raises [HTTPError]) and the code misses it: the [else] branch calls
    [raise_for_status], which raises nothing below 400, and the method
    then falls off its end.  With status 203, a successful status, the
    call does not return the results; with status 300, which is not
    successful, it raises nothing; both calls return [None]. *)
Lemma get_characters_returns_None :
  let api := APICharacterRetriever_init "https://rickandmortyapi.com/api/character" in
  (200 <= status_code (answer 203 page) < 300
   /\ fst (get_characters api (world_with (answer 203 page))) = Ret VNone
   /\ fst (get_characters api (world_with (answer 203 page))) <> Ret (VList fixture))
  /\ (~ (200 <= status_code (answer 300 page) < 300)
      /\ fst (get_characters api (world_with (answer 300 page))) = Ret VNone
      /\ fst (get_characters api (world_with (answer 300 page))) <> Raise (HTTPError 300)).
Proof.
  simpl. repeat split; try lia; discriminate.
Qed.

(** ** Reports only print and draw *)

Lemma reports_ret {A} (a : A) : reports (ret a).
Proof.
  intros o. exists (Ret a), []. split; [reflexivity|].
  intros w. unfold ret. by rewrite log_nil.
Qed.

Lemma reports_lift_result {A} (r : result A) : reports (lift_result r).
Proof.
  intros o. exists r, []. split; [reflexivity|].
  intros w. unfold lift_result. by rewrite log_nil.
Qed.

Lemma reports_get_self : reports get_self.
Proof.
  intros o. exists (Ret o), []. split; [reflexivity|].
  intros w. unfold get_self. simpl. by rewrite log_nil.
Qed.

Lemma reports_emit e : is_report_event e = true -> reports (in_world (emit e)).
Proof.
  intros He o. exists (Ret tt), [e]. split; [simpl; by rewrite He|].
  intros w. reflexivity.
Qed.

Lemma reports_bind {A B} (m : method A) (k : A -> method B) :
  reports m -> (forall a, reports (k a)) -> reports (bind m k).
Proof.
  intros Hm Hk o. destruct (Hm o) as (r & es & Hes & Hrun).
  destruct r as [a|e].
  - destruct (Hk a o) as (r' & es' & Hes' & Hrun').
    exists r', (es ++ es'). split.
    + rewrite forallb_app, Hes, Hes'. reflexivity.
    + intros w. unfold bind. rewrite Hrun, Hrun'. by rewrite log_app.
  - exists (Raise e), es. split; [exact Hes|].
    intros w. unfold bind. by rewrite Hrun.
Qed.

Lemma reports_for_each {X} (l : list X) (body : X -> method unit) :
  (forall x, reports (body x)) -> reports (for_each l body).
Proof.
  intros Hb. induction l as [|x l IH]; simpl.
  - apply reports_ret.
  - apply reports_bind; auto.
Qed.

Create HintDb report.
#[local] Hint Resolve reports_ret reports_lift_result reports_get_self reports_bind
  reports_for_each : report.
#[local] Hint Extern 1 (reports (in_world (plt _))) =>
  unfold plt; apply reports_emit; reflexivity : report.
#[local] Hint Extern 1 (reports (in_world (print _))) =>
  unfold print; apply reports_emit; reflexivity : report.

Lemma reports_display save_path : reports (display_status_distribution save_path).
Proof.
  unfold display_status_distribution.
  apply reports_bind; [auto with report|]. intros self.
  apply reports_bind; [auto with report|]. intros c.
  apply reports_bind; [auto with report|]. intros _.
  apply reports_bind.
  { unfold plt_bar. intros o.
    exists (Ret (bars_of (counter_values c))),
      [PltBar (counter_keys c) (counter_values c) ["blue"; "green"; "red"]].
    split; [reflexivity|]. intros w. reflexivity. }
  intros bars. auto 20 with report.
Qed.

Lemma reports_show t : reports (show_characters_by_species t).
Proof. unfold show_characters_by_species. auto 20 with report. Qed.

Lemma reports_find t : reports (find_characters_by_name t).
Proof.
  unfold find_characters_by_name.
  apply reports_bind; [auto with report|]. intros self.
  apply reports_bind; [auto with report|]. intros [|c found]; auto 20 with report.
Qed.

Lemma reports_process_data : reports process_data.
Proof.
  unfold process_data.
  apply reports_bind; [apply reports_display | intros _].
  apply reports_bind; [apply reports_show | intros _].
  apply reports_bind; [apply reports_find | intros _].
  apply reports_ret.
Qed.

(** ** The cache handler *)

Lemma RedisDataHandler_init_up redis_host redis_port w :
  redis_ping_exn w = None ->
  RedisDataHandler_init redis_host redis_port w
  = (Ret {| redis_client :=
              {| host := redis_host; port := redis_port; decode_responses := true |} |},
     log w [RedisPing redis_host redis_port]).
Proof.
  intros Hup. unfold RedisDataHandler_init, ping, bind, try_except, redis_ping, bind, emit.
  cbn. by rewrite Hup.
Qed.

Lemma RedisDataHandler_init_refused redis_host redis_port w msg :
  redis_ping_exn w = Some (RedisConnectionError msg) ->
  RedisDataHandler_init redis_host redis_port w
  = (Raise (SystemExit 1),
     log w [RedisPing redis_host redis_port;
            Print ("Unable to connect to Redis: " +:+ msg)]).
Proof.
  intros Hdown. unfold RedisDataHandler_init, ping, bind, try_except, redis_ping, bind, emit.
  cbn. rewrite Hdown. unfold print, emit, py_exit, raise. by rewrite log_app.
Qed.

Lemma RedisDataHandler_init_raises redis_host redis_port w e :
  redis_ping_exn w = Some e ->
  (forall msg, e <> RedisConnectionError msg) ->
  RedisDataHandler_init redis_host redis_port w
  = (Raise e, log w [RedisPing redis_host redis_port]).
Proof.
  intros Hdown Hne. unfold RedisDataHandler_init, ping, bind, try_except, redis_ping, bind, emit.
  cbn. rewrite Hdown. destruct e; try reflexivity. by destruct (Hne msg).
Qed.

Lemma save_data_run self key v w :
  save_data self key v w
  = match redis_cmd_exn w with
    | Some e => (Raise e, log w [RedisSet key (json_dumps v)])
    | None => (Ret VNone, put (log w [RedisSet key (json_dumps v)]) key (json_dumps v))
    end.
Proof.
  unfold save_data, redis_set, bind, emit, ret. cbn.
  by destruct (redis_cmd_exn w).
Qed.

(** ** The workflow *)

Lemma execute_unfold self w :
  execute self w =
  match get_characters (APICharacterRetriever_init (api_endpoint self)) w with
  | (Raise e, w1) => (Raise e, w1)
  | (Ret character_data, w1) =>
      match RedisDataHandler_init "localhost" 6379 w1 with
      | (Raise e, w2) => (Raise e, w2)
      | (Ret redis_handler, w2) =>
          match save_data redis_handler (redis_key self) character_data w2 with
          | (Raise e, w3) => (Raise e, w3)
          | (Ret _, w3) =>
              match process_data (CharacterDataProcessor_init character_data, w3) with
              | (Raise e, s) => (Raise e, snd s)
              | (Ret _, s) => (Ret VNone, snd s)
              end
          end
      end
  end.
Proof.
  unfold execute, bind, call_on, ret.
  destruct (get_characters _ w) as [[d|e] w1]; [|reflexivity].
  destruct (RedisDataHandler_init _ _ w1) as [[h|e] w2]; [|reflexivity].
  destruct (save_data h _ d w2) as [[x|e] w3]; [|reflexivity].
  destruct (process_data _) as [[x'|e] s]; reflexivity.
Qed.

Lemma get_characters_split self w :
  get_characters self w
  = (fst (get_characters self w), log w [HttpGet (endpoint_url self)]).
Proof.
  rewrite <- get_characters_world. by destruct (get_characters self w).
Qed.

(** C6.  Whenever the run reaches the construction of the cache handler
    and the Redis server refuses the connection, the run prints the
    diagnostic and stops with [SystemExit(1)], so the process ends with
    status 1: nothing is written to the cache and no report is made.
    No other exception is handled anywhere: an exception of the fetch,
    any other exception of the liveness check, an exception of the cache
    write and an exception of the report all leave [execute] as they
    are. *)
Theorem unreachable_store_is_fatal (self : WorkflowExecutor) (w : world) (d : value)
    (msg : string) :
  fst (get_characters (APICharacterRetriever_init (api_endpoint self)) w) = Ret d ->
  redis_ping_exn w = Some (RedisConnectionError msg) ->
  execute self w
  = (Raise (SystemExit 1),
     log w [HttpGet (api_endpoint self);
            RedisPing "localhost" 6379;
            Print ("Unable to connect to Redis: " +:+ msg)])
  /\ exit_status (fst (execute self w)) = 1
  /\ store (snd (execute self w)) = store w
  /\ (forall w0 e,
        fst (get_characters (APICharacterRetriever_init (api_endpoint self)) w0) = Raise e ->
        fst (execute self w0) = Raise e)
  /\ (forall w0 d0 e,
        fst (get_characters (APICharacterRetriever_init (api_endpoint self)) w0) = Ret d0 ->
        redis_ping_exn w0 = Some e ->
        (forall m, e <> RedisConnectionError m) ->
        fst (execute self w0) = Raise e)
  /\ (forall w0 d0 e,
        fst (get_characters (APICharacterRetriever_init (api_endpoint self)) w0) = Ret d0 ->
        redis_ping_exn w0 = None ->
        redis_cmd_exn w0 = Some e ->
        fst (execute self w0) = Raise e)
  /\ (forall w0 d0 e,
        fst (get_characters (APICharacterRetriever_init (api_endpoint self)) w0) = Ret d0 ->
        redis_ping_exn w0 = None ->
        redis_cmd_exn w0 = None ->
        fst (process_data (CharacterDataProcessor_init d0, w0)) = Raise e ->
        fst (execute self w0) = Raise e).
Proof.
  intros Hfetch Hdown.
  assert (Hrun : execute self w
                 = (Raise (SystemExit 1),
                    log w [HttpGet (api_endpoint self);
                           RedisPing "localhost" 6379;
                           Print ("Unable to connect to Redis: " +:+ msg)])).
  { rewrite execute_unfold, get_characters_split, Hfetch.
    rewrite (RedisDataHandler_init_refused _ _ _ msg) by exact Hdown.
    by rewrite log_app. }
  split; [exact Hrun|]. rewrite Hrun.
  split; [reflexivity|]. split; [reflexivity|].
  split; [|split; [|split]].
  - intros w0 e Hf. rewrite execute_unfold, get_characters_split, Hf. reflexivity.
  - intros w0 d0 e Hf Hp Hne. rewrite execute_unfold, get_characters_split, Hf.
    rewrite (RedisDataHandler_init_raises _ _ _ e) by assumption. reflexivity.
  - intros w0 d0 e Hf Hp Hc. rewrite execute_unfold, get_characters_split, Hf.
    rewrite RedisDataHandler_init_up by exact Hp.
    rewrite save_data_run. cbn [redis_cmd_exn log]. by rewrite Hc.
  - intros w0 d0 e Hf Hp Hc Hr. rewrite execute_unfold, get_characters_split, Hf.
    rewrite RedisDataHandler_init_up by exact Hp.
    rewrite save_data_run. cbn [redis_cmd_exn log]. rewrite Hc.
    destruct (reports_process_data (CharacterDataProcessor_init d0)) as (r & es & _ & Hes).
    rewrite Hes in Hr |- *. cbn [fst] in Hr. by subst r.
Qed.

Lemma unreachable_store_is_fatal_witness :
  fst (get_characters (APICharacterRetriever_init "https://rickandmortyapi.com/api/character")
         world_without_redis) = Ret (VList fixture)
  /\ redis_ping_exn world_without_redis
     = Some (RedisConnectionError "Error 111 connecting to localhost:6379. Connection refused.")
  /\ main world_without_redis
     = (Raise (SystemExit 1),
        log world_without_redis
          [HttpGet "https://rickandmortyapi.com/api/character";
           RedisPing "localhost" 6379;
           Print "Unable to connect to Redis: Error 111 connecting to localhost:6379. Connection refused."]).
Proof.
  split; [reflexivity|]. split; [reflexivity|].
  destruct (unreachable_store_is_fatal
              (WorkflowExecutor_init "https://rickandmortyapi.com/api/character"
                 "rickandmorty:characters")
              world_without_redis (VList fixture)
              "Error 111 connecting to localhost:6379. Connection refused."
              eq_refl eq_refl) as [H _].
  exact H.
Defined.



(** ** The JSON codec *)

(** Induction on values, with the hypothesis for every element of a
    list and every entry of a dictionary. *)
Lemma value_induction (P : value -> Prop)
    (HNone : P VNone)
    (HBool : forall b, P (VBool b))
    (HInt : forall z, P (VInt z))
    (HStr : forall s, P (VStr s))
    (HList : forall l, Forall P l -> P (VList l))
    (HDict : forall d, Forall (fun kv => P (snd kv)) d -> P (VDict d)) :
  forall v, P v.
Proof.
  exact
    (fix go (v : value) : P v :=
       match v with
       | VNone => HNone
       | VBool b => HBool b
       | VInt z => HInt z
       | VStr s => HStr s
       | VList l =>
           HList l ((fix elements (l : list value) : Forall P l :=
                       match l with
                       | [] => @List.Forall_nil _ P
                       | x :: l' => @List.Forall_cons _ P x l' (go x) (elements l')
                       end) l)
       | VDict d =>
           HDict d ((fix entries (d : list (string * value))
                       : Forall (fun kv => P (snd kv)) d :=
                       match d with
                       | [] => @List.Forall_nil _ _
                       | kv :: d' =>
                           @List.Forall_cons _ _ kv d' (go (snd kv)) (entries d')
                       end) d)
       end).
Qed.

#[local] Arguments String.append !s1 s2 : simpl nomatch.

Lemma append_assoc (a b c : string) : (a +:+ b) +:+ c = a +:+ b +:+ c.
Proof. induction a as [|x a IH]; cbn; [reflexivity | by f_equal]. Qed.

Lemma append_nil_r (a : string) : a +:+ "" = a.
Proof. induction a as [|x a IH]; cbn; [reflexivity | by f_equal]. Qed.

Lemma length_append (a b : string) :
  String.length (a +:+ b) = (String.length a + String.length b)%nat.
Proof. induction a as [|x a IH]; cbn; [reflexivity | by f_equal]. Qed.

(** *** Strings *)

Lemma scan_string_escape_char c rest :
  scan_string (json_escape_char c +:+ rest)
  = match scan_string rest with
    | Some (t, r) => Some (String c t, r)
    | None => None
    end.
Proof.
  destruct c as [[] [] [] [] [] [] [] []]; reflexivity.
Qed.

Lemma scan_string_escape s rest :
  scan_string (json_escape s +:+ String dquote rest) = Some (s, rest).
Proof.
  induction s as [|c s IH]; simpl; [reflexivity|].
  rewrite append_assoc, scan_string_escape_char, IH. reflexivity.
Qed.

Lemma scan_string_encode s rest :
  exists body, json_encode_string s +:+ rest = String dquote body
               /\ scan_string body = Some (s, rest).
Proof.
  exists (json_escape s +:+ String dquote rest). split.
  - unfold json_encode_string. simpl. by rewrite append_assoc.
  - apply scan_string_escape.
Qed.

(** *** Numbers *)

Lemma delimited_no_digit rest :
  delimited rest = true -> scan_digits rest = ("", rest).
Proof.
  destruct rest as [|c rest]; [reflexivity|]. unfold delimited. simpl.
  destruct (is_digit c); [discriminate | reflexivity].
Qed.

Lemma delimited_no_float rest : delimited rest = true -> starts_float_part rest = false.
Proof.
  destruct rest as [|c rest]; [reflexivity|]. unfold delimited.
  rewrite andb_true_iff, !negb_true_iff. tauto.
Qed.

Lemma scan_digits_uint d rest :
  delimited rest = true ->
  scan_digits (NilEmpty.string_of_uint d +:+ rest) = (NilEmpty.string_of_uint d, rest).
Proof.
  intros Hrest. induction d; simpl;
    [by apply delimited_no_digit | by rewrite IHd ..].
Qed.

Lemma to_uint_nonnil n : N.to_uint n <> Decimal.Nil.
Proof.
  destruct n as [|p]; simpl; [discriminate | apply Unsigned.to_uint_nonnil].
Qed.

Lemma str_of_nat_NilEmpty n : str_of_nat n = NilEmpty.string_of_uint (N.to_uint n).
Proof.
  unfold str_of_nat. pose proof (to_uint_nonnil n) as H.
  destruct (N.to_uint n); [congruence | reflexivity ..].
Qed.

Lemma str_of_nat_head n :
  exists c t, str_of_nat n = String c t /\ is_digit c = true.
Proof.
  rewrite str_of_nat_NilEmpty. pose proof (to_uint_nonnil n) as H.
  destruct (N.to_uint n); [congruence | simpl; eexists _, _; split; reflexivity ..].
Qed.

Lemma scan_nat_str n rest :
  delimited rest = true -> scan_nat (str_of_nat n +:+ rest) = Some (n, rest).
Proof.
  intros Hrest. unfold scan_nat.
  rewrite str_of_nat_NilEmpty, scan_digits_uint by exact Hrest.
  rewrite <- str_of_nat_NilEmpty. unfold str_of_nat at 1.
  rewrite NilZero.usu by apply to_uint_nonnil.
  rewrite DecimalN.Unsigned.of_to, String.eqb_refl, delimited_no_float by exact Hrest.
  reflexivity.
Qed.

Lemma digit_is_no_sign c : is_digit c = true -> Ascii.eqb c "-" = false.
Proof.
  destruct (Ascii.eqb_spec c "-") as [->|]; [discriminate | reflexivity].
Qed.

Lemma str_of_int_pos p : str_of_int (Z.pos p) = str_of_nat (N.pos p).
Proof. reflexivity. Qed.

Lemma str_of_int_neg p : str_of_int (Z.neg p) = String "-" (str_of_nat (N.pos p)).
Proof. reflexivity. Qed.

Lemma scan_number_int z rest :
  delimited rest = true -> scan_number (str_of_int z +:+ rest) = Some (VInt z, rest).
Proof.
  intros Hrest. destruct z as [|p|p].
  - change (str_of_int 0) with (str_of_nat 0).
    change (scan_number (str_of_nat 0 +:+ rest))
      with (match scan_nat (str_of_nat 0 +:+ rest) with
            | Some (n, r) => Some (VInt (Z.of_N n), r)
            | None => None
            end).
    by rewrite scan_nat_str.
  - rewrite str_of_int_pos.
    destruct (str_of_nat_head (N.pos p)) as (c & t & Heq & Hc).
    pose proof (scan_nat_str (N.pos p) rest Hrest) as Hscan.
    rewrite Heq in Hscan |- *. simpl. rewrite (digit_is_no_sign c Hc).
    simpl in Hscan. rewrite Hscan. reflexivity.
  - rewrite str_of_int_neg. simpl. by rewrite scan_nat_str.
Qed.

Lemma str_of_int_head z :
  exists c t, str_of_int z = String c t /\ (is_digit c || Ascii.eqb c "-") = true.
Proof.
  destruct z as [|p|p].
  - exists "0"%char, "". split; reflexivity.
  - destruct (str_of_nat_head (N.pos p)) as (c & t & Heq & Hc).
    exists c, t. rewrite str_of_int_pos, Hc. split; [exact Heq | reflexivity].
  - rewrite str_of_int_neg. eexists _, _. split; reflexivity.
Qed.

(** *** Values *)

Lemma scan_value_space fuel s : scan_value fuel (String " " s) = scan_value fuel s.
Proof. destruct fuel; reflexivity. Qed.

Lemma scan_value_number f c t :
  (is_digit c || Ascii.eqb c "-") = true ->
  scan_value (S f) (String c t) = scan_number (String c t).
Proof.
  destruct c as [[] [] [] [] [] [] [] []]; try discriminate; reflexivity.
Qed.

Lemma scan_value_string f body :
  scan_value (S f) (String dquote body)
  = match scan_string body with
    | Some (t, rest) => Some (VStr t, rest)
    | None => None
    end.
Proof. reflexivity. Qed.

Lemma scan_value_list f c r :
  is_ws c = false ->
  Ascii.eqb c "]" = false ->
  scan_value (S f) (String "[" (String c r))
  = match scan_elements f (String c r) with
    | Some (l, rest) => Some (VList l, rest)
    | None => None
    end.
Proof. intros Hws Hc. simpl. rewrite Hws, Hc. reflexivity. Qed.

Lemma scan_value_dict f r :
  scan_value (S f) (String "{" (String dquote r))
  = match scan_members f (String dquote r) with
    | Some (l, rest) => Some (VDict (dict_of_pairs l), rest)
    | None => None
    end.
Proof. reflexivity. Qed.

Lemma scan_elements_S f s :
  scan_elements (S f) s
  = match scan_value f s with
    | Some (v, r) =>
        match skip_ws r with
        | String c r' =>
            if Ascii.eqb c "," then
              match scan_elements f r' with
              | Some (l, rest) => Some (v :: l, rest)
              | None => None
              end
            else if Ascii.eqb c "]" then Some ([v], r')
            else None
        | EmptyString => None
        end
    | None => None
    end.
Proof. reflexivity. Qed.

Lemma scan_members_S f body :
  scan_members (S f) (String dquote body)
  = match scan_string body with
    | Some (k, r1) =>
        match skip_ws r1 with
        | String c r2 =>
            if Ascii.eqb c ":" then
              match scan_value f r2 with
              | Some (v, r3) =>
                  match skip_ws r3 with
                  | String c' r4 =>
                      if Ascii.eqb c' "," then
                        match scan_members f r4 with
                        | Some (l, rest) => Some ((k, v) :: l, rest)
                        | None => None
                        end
                      else if Ascii.eqb c' "}" then Some ([(k, v)], r4)
                      else None
                  | EmptyString => None
                  end
              | None => None
              end
            else None
        | EmptyString => None
        end
    | None => None
    end.
Proof. reflexivity. Qed.

Lemma scan_members_space fuel s : scan_members fuel (String " " s) = scan_members fuel s.
Proof. destruct fuel; reflexivity. Qed.

(** The first character of a serialised value is neither white space
    nor a closing bracket. *)
Lemma json_dumps_head v :
  exists c t, json_dumps v = String c t /\ is_ws c = false /\ Ascii.eqb c "]" = false.
Proof.
  destruct v as [ | [] | z | s | l | d]; try (eexists _, _; repeat split; reflexivity).
  destruct (str_of_int_head z) as (c & t & Heq & Hc).
  exists c, t. split; [exact Heq|]. clear Heq.
  destruct c as [[] [] [] [] [] [] [] []]; try discriminate; split; reflexivity.
Qed.

Lemma json_dumps_length v : (1 <= String.length (json_dumps v))%nat.
Proof.
  destruct (json_dumps_head v) as (c & t & Heq & _). rewrite Heq. simpl. lia.
Qed.

Lemma scan_value_blank sp fuel s : scan_value fuel (blank sp +:+ s) = scan_value fuel s.
Proof. destruct sp; [apply scan_value_space | reflexivity]. Qed.

Lemma join_cons2 sep x y l : join sep (x :: y :: l) = x +:+ sep +:+ join sep (y :: l).
Proof. reflexivity. Qed.

Lemma scan_elements_join l :
  Forall scans l ->
  forallb wf_value l = true ->
  l <> [] ->
  forall fuel sp rest,
    (String.length (join ", " (map json_dumps l)) < fuel)%nat ->
    scan_elements fuel (blank sp +:+ join ", " (map json_dumps l) +:+ String "]" rest)
    = Some (l, rest).
Proof.
  induction l as [|v l IH]; intros Hall Hwf Hne fuel sp rest Hfuel; [congruence|].
  apply Forall_cons in Hall. destruct Hall as [Hv Hall].
  simpl in Hwf. apply andb_true_iff in Hwf. destruct Hwf as [Hwfv Hwf].
  destruct fuel as [|f]; [lia|]. rewrite scan_elements_S, scan_value_blank.
  destruct l as [|v' l].
  - simpl in Hfuel |- *.
    rewrite (Hv Hwfv f (String "]" rest)) by (try reflexivity; lia).
    reflexivity.
  - cbn [map] in Hfuel |- *. rewrite join_cons2 in Hfuel |- *.
    rewrite !length_append in Hfuel. simpl in Hfuel.
    rewrite !append_assoc.
    rewrite (Hv Hwfv f) by (try reflexivity; lia).
    simpl.
    specialize (IH Hall Hwf ltac:(discriminate) f true rest).
    cbn [map blank] in IH. simpl in IH. rewrite IH by lia. reflexivity.
Qed.

Lemma scan_members_join d :
  Forall (fun kv => scans (snd kv)) d ->
  forallb (fun kv => wf_value (snd kv)) d = true ->
  d <> [] ->
  forall fuel sp rest,
    (String.length (join ", " (map json_member d)) < fuel)%nat ->
    scan_members fuel (blank sp +:+ join ", " (map json_member d) +:+ String "}" rest)
    = Some (d, rest).
Proof.
  induction d as [|[k v] d IH]; intros Hall Hwf Hne fuel sp rest Hfuel; [congruence|].
  apply Forall_cons in Hall. destruct Hall as [Hv Hall]. simpl in Hv.
  simpl in Hwf. apply andb_true_iff in Hwf. destruct Hwf as [Hwfv Hwf].
  destruct fuel as [|f]; [lia|].
  assert (Hsp : forall s, scan_members (S f) (blank sp +:+ s) = scan_members (S f) s).
  { intros s. destruct sp; [apply scan_members_space | reflexivity]. }
  rewrite Hsp. clear Hsp.
  destruct d as [|kv' d].
  - cbn [map join] in Hfuel |- *. unfold json_member in Hfuel |- *. cbn [fst snd] in *.
    rewrite !length_append in Hfuel. simpl in Hfuel.
    rewrite !append_assoc.
    destruct (scan_string_encode k (": " +:+ json_dumps v +:+ String "}" rest))
      as (body & Heq & Hscan).
    rewrite Heq, scan_members_S, Hscan. simpl.
    rewrite scan_value_space.
    rewrite (Hv Hwfv f (String "}" rest)) by (try reflexivity; lia).
    reflexivity.
  - cbn [map] in Hfuel |- *. rewrite join_cons2 in Hfuel |- *.
    unfold json_member at 1 in Hfuel. unfold json_member at 1. cbn [fst snd] in *.
    rewrite !length_append in Hfuel. simpl in Hfuel.
    rewrite !append_assoc.
    destruct (scan_string_encode k
                (": " +:+ json_dumps v +:+ ", "
                 +:+ join ", " (json_member kv' :: map json_member d) +:+ String "}" rest))
      as (body & Heq & Hscan).
    rewrite Heq, scan_members_S, Hscan. simpl.
    rewrite scan_value_space.
    rewrite (Hv Hwfv f) by (try reflexivity; lia).
    simpl.
    specialize (IH Hall Hwf ltac:(discriminate) f true rest).
    cbn [map blank] in IH. simpl in IH. rewrite IH by lia. reflexivity.
Qed.

Lemma substring_all s : String.substring 0 (String.length s) s = s.
Proof. induction s as [|c s IH]; simpl; [reflexivity | by rewrite IH]. Qed.

Lemma substring_after a b :
  String.substring (String.length a) (String.length (a +:+ b) - String.length a) (a +:+ b) = b.
Proof.
  induction a as [|c a IH]; simpl.
  - rewrite Nat.sub_0_r. apply substring_all.
  - exact IH.
Qed.

Lemma expect_literal lit v rest : expect lit v (lit +:+ rest) = Some (v, rest).
Proof.
  unfold expect.
  assert (H : String.prefix lit (lit +:+ rest) = true) by (apply prefix_iff; by exists rest).
  by rewrite H, substring_after.
Qed.

Lemma join_starts sep x l tail c t :
  x = String c t -> exists r, join sep (x :: l) +:+ tail = String c r.
Proof.
  intros ->. destruct l; simpl; eexists; reflexivity.
Qed.

Lemma scan_value_list_elements f s c r :
  s = String c r ->
  is_ws c = false ->
  Ascii.eqb c "]" = false ->
  scan_value (S f) (String "[" s)
  = match scan_elements f s with
    | Some (l, rest) => Some (VList l, rest)
    | None => None
    end.
Proof. intros ->. apply scan_value_list. Qed.

Lemma scan_value_dict_members f s r :
  s = String dquote r ->
  scan_value (S f) (String "{" s)
  = match scan_members f s with
    | Some (l, rest) => Some (VDict (dict_of_pairs l), rest)
    | None => None
    end.
Proof. intros ->. apply scan_value_dict. Qed.

(** *** Dictionaries built from distinct keys *)

Lemma dict_set_fresh k x acc :
  mem k (map fst acc) = false -> dict_set k x acc = acc ++ [(k, x)].
Proof.
  induction acc as [|[k' y] acc IH]; simpl; intros H; [reflexivity|].
  unfold mem in H. simpl in H. apply orb_false_iff in H. destruct H as [Hk H].
  rewrite String.eqb_sym, Hk. f_equal. by apply IH.
Qed.

Lemma distinct_keys_app_cons a k b :
  distinct_keys (a ++ k :: b) = true -> mem k a = false.
Proof.
  induction a as [|x a IH]; simpl; intros H; [reflexivity|].
  apply andb_true_iff in H. destruct H as [Hx H].
  unfold mem. simpl. fold (mem k a). rewrite (IH H), orb_false_r.
  apply negb_true_iff in Hx. apply mem_not_In in Hx.
  apply String.eqb_neq. intros ->. apply Hx. apply in_or_app. right. by left.
Qed.

Lemma fold_dict_set pairs acc :
  distinct_keys (map fst acc ++ map fst pairs) = true ->
  fold_left (fun d kv => dict_set (fst kv) (snd kv) d) pairs acc = acc ++ pairs.
Proof.
  revert acc. induction pairs as [|[k x] pairs IH]; intros acc H; simpl.
  - by rewrite app_nil_r.
  - simpl in H. rewrite dict_set_fresh by (eapply distinct_keys_app_cons; exact H).
    rewrite IH.
    + by rewrite <- app_assoc.
    + rewrite map_app. simpl. by rewrite <- app_assoc.
Qed.

Lemma dict_of_pairs_distinct d :
  distinct_keys (map fst d) = true -> dict_of_pairs d = d.
Proof. intros H. unfold dict_of_pairs. by rewrite fold_dict_set. Qed.

(** *** The round trip *)

Lemma json_dumps_list_text l rest :
  json_dumps (VList l) +:+ rest
  = String "[" (join ", " (map json_dumps l) +:+ String "]" rest).
Proof. cbn [json_dumps]. by rewrite !append_assoc. Qed.

Lemma json_dumps_list_length l :
  String.length (json_dumps (VList l))
  = S (S (String.length (join ", " (map json_dumps l)))).
Proof. cbn [json_dumps]. rewrite !length_append. simpl. lia. Qed.

Lemma json_dumps_dict_text d rest :
  json_dumps (VDict d) +:+ rest
  = String "{" (join ", " (map json_member d) +:+ String "}" rest).
Proof. cbn [json_dumps]. by rewrite !append_assoc. Qed.

Lemma json_dumps_dict_length d :
  String.length (json_dumps (VDict d))
  = S (S (String.length (join ", " (map json_member d)))).
Proof.
  cbn [json_dumps]. rewrite !length_append. cbn [String.length].
  unfold json_member. lia.
Qed.

Lemma scans_all v : scans v.
Proof.
  induction v as [ | b | z | s | l IH | d IH] using value_induction;
    intros Hwf fuel rest Hfuel Hrest.
  - destruct fuel as [|f]; [simpl in Hfuel; lia|].
    exact (expect_literal "null" VNone rest).
  - destruct fuel as [|f]; [destruct b; simpl in Hfuel; lia|].
    destruct b.
    + exact (expect_literal "true" (VBool true) rest).
    + exact (expect_literal "false" (VBool false) rest).
  - pose proof (json_dumps_length (VInt z)) as Hlen.
    destruct fuel as [|f]; [lia|]. cbn [json_dumps].
    destruct (str_of_int_head z) as (c & t & Heq & Hc).
    pose proof (scan_number_int z rest Hrest) as Hscan.
    rewrite Heq in Hscan |- *.
    change (String c t +:+ rest) with (String c (t +:+ rest)) in Hscan |- *.
    rewrite (scan_value_number f c _ Hc). exact Hscan.
  - destruct fuel as [|f]; [simpl in Hfuel; lia|].
    destruct (scan_string_encode s rest) as (body & Heq & Hscan).
    cbn [json_dumps]. rewrite Heq, scan_value_string, Hscan. reflexivity.
  - rewrite json_dumps_list_length in Hfuel. rewrite json_dumps_list_text.
    destruct fuel as [|f]; [lia|].
    destruct l as [|v l]; [reflexivity|].
    cbn [wf_value] in Hwf. fold wf_value in Hwf.
    destruct (json_dumps_head v) as (c & t & Heq & Hws & Hc).
    destruct (join_starts ", " (json_dumps v) (map json_dumps l) (String "]" rest) c t Heq)
      as (r & Hr).
    cbn [map] in *. rewrite (scan_value_list_elements f _ c r Hr Hws Hc).
    pose proof (scan_elements_join (v :: l) IH Hwf ltac:(discriminate) f false rest) as He.
    cbn [blank map] in He.
    change ("" +:+ ?x) with x in He. rewrite He by lia. reflexivity.
  - rewrite json_dumps_dict_length in Hfuel. rewrite json_dumps_dict_text.
    destruct fuel as [|f]; [lia|].
    destruct d as [|[k v] d]; [reflexivity|].
    cbn [wf_value] in Hwf. fold wf_value in Hwf.
    apply andb_true_iff in Hwf. destruct Hwf as [Hkeys Hwf].
    assert (Hhead : exists r,
               join ", " (map json_member ((k, v) :: d)) +:+ String "}" rest
               = String dquote r).
    { cbn [map]. eapply join_starts. unfold json_member, json_encode_string. reflexivity. }
    destruct Hhead as (r & Hr).
    rewrite (scan_value_dict_members f _ r Hr).
    pose proof (scan_members_join ((k, v) :: d) IH Hwf ltac:(discriminate) f false rest) as Hm.
    cbn [blank] in Hm.
    change ("" +:+ ?x) with x in Hm. rewrite Hm by lia.
    by rewrite dict_of_pairs_distinct.
Qed.

Lemma json_loads_dumps v : wf_value v = true -> json_loads (json_dumps v) = Ret v.
Proof.
  intros Hwf. unfold json_loads.
  rewrite <- (append_nil_r (json_dumps v)) at 2.
  rewrite (scans_all v Hwf) by (try reflexivity; lia). reflexivity.
Qed.

(** ** The cache round trip *)

Lemma load_data_run self key text w :
  redis_cmd_exn w = None ->
  store w !! key = Some text ->
  text <> "" ->
  load_data self key w = (json_loads text, log w [RedisGet key]).
Proof.
  intros Hcmd Hget Hne. unfold load_data, bind, redis_get, emit. cbn.
  rewrite Hcmd, Hget. destruct text; [congruence | reflexivity].
Qed.

Lemma json_dumps_nonempty v : json_dumps v <> "".
Proof.
  destruct (json_dumps_head v) as (c & t & Heq & _). rewrite Heq. discriminate.
Qed.

(** C5.  For every value [v] that JSON can carry and every key [k], as
    long as the Redis server answers, [load_data k] performed right
    after [save_data k v] returns [v] itself: the same records, in the
    same order, with the same fields and field values.  The two calls
    store the serialised value under [k] and perform one SET and one
    GET. *)
Theorem load_after_save (self : RedisDataHandler) (key : string) (v : value) (w : world) :
  wf_value v = true ->
  redis_cmd_exn w = None ->
  let run := (save_data self key v ;;; load_data self key) w in
  fst run = Ret v
  /\ store (snd run) = <[key := json_dumps v]> (store w)
  /\ trace (snd run) = trace w ++ [RedisSet key (json_dumps v); RedisGet key].
Proof.
  intros Hwf Hcmd run. unfold run, bind. rewrite save_data_run, Hcmd.
  rewrite (load_data_run self key (json_dumps v)).
  - rewrite json_loads_dumps by exact Hwf. cbn.
    split; [reflexivity|]. split; [reflexivity|]. by rewrite <- app_assoc.
  - exact Hcmd.
  - cbn. apply lookup_insert_eq.
  - apply json_dumps_nonempty.
Qed.

Lemma load_after_save_witness :
  wf_value (VList fixture) = true
  /\ redis_cmd_exn quiet_world = None
  /\ fst ((save_data {| redis_client := {| host := "localhost"; port := 6379;
                                           decode_responses := true |} |}
             "rickandmorty:characters" (VList fixture) ;;;
           load_data {| redis_client := {| host := "localhost"; port := 6379;
                                           decode_responses := true |} |}
             "rickandmorty:characters") quiet_world)
     = Ret (VList [rick; abadango; morty]).
Proof.
  split; [reflexivity|]. split; [reflexivity|].
  destruct (load_after_save
              {| redis_client := {| host := "localhost"; port := 6379;
                                    decode_responses := true |} |}
              "rickandmorty:characters" (VList fixture) quiet_world eq_refl eq_refl)
    as [H _].
  exact H.
Defined.

(** * Further properties of the code *)

(** ** The cache handler at its edges *)

(** X1.  [load_data] answers [None], without raising, for a key that
    Redis does not hold and for a key that holds the empty text; it
    performs one GET and leaves the key space as it is. *)
Theorem load_data_absent_or_empty (self : RedisDataHandler) (key : string) (w : world) :
  redis_cmd_exn w = None ->
  store w !! key = None \/ store w !! key = Some "" ->
  load_data self key w = (Ret VNone, log w [RedisGet key])
  /\ store (snd (load_data self key w)) = store w.
Proof.
  intros Hcmd Hkey.
  assert (H : load_data self key w = (Ret VNone, log w [RedisGet key])).
  { unfold load_data, bind, redis_get, emit. cbn. rewrite Hcmd.
    destruct Hkey as [-> | ->]; reflexivity. }
  split; [exact H|]. rewrite H. reflexivity.
Qed.

Lemma load_data_absent_or_empty_witness :
  redis_cmd_exn quiet_world = None
  /\ (store quiet_world !! "rickandmorty:characters" = None
      \/ store quiet_world !! "rickandmorty:characters" = Some "")
  /\ fst (load_data {| redis_client := {| host := "localhost"; port := 6379;
                                          decode_responses := true |} |}
            "rickandmorty:characters" quiet_world) = Ret VNone.
Proof.
  split; [reflexivity|]. split; [left; reflexivity|].
  destruct (load_data_absent_or_empty
              {| redis_client := {| host := "localhost"; port := 6379;
                                    decode_responses := true |} |}
              "rickandmorty:characters" quiet_world eq_refl (or_introl eq_refl)) as [H _].
  rewrite H. reflexivity.
Defined.

Lemma save_data_up self key v w :
  redis_cmd_exn w = None ->
  save_data self key v w
  = (Ret VNone, put (log w [RedisSet key (json_dumps v)]) key (json_dumps v)).
Proof. intros Hcmd. by rewrite save_data_run, Hcmd. Qed.

(** X2.  A second [save_data] under the same key replaces the first
    value: [load_data] then returns the value saved last, and the key
    holds its serialisation only. *)
Theorem save_data_overwrites (self : RedisDataHandler) (key : string) (v1 v2 : value)
    (w : world) :
  wf_value v2 = true ->
  redis_cmd_exn w = None ->
  let run := (save_data self key v1 ;;; save_data self key v2 ;;; load_data self key) w in
  fst run = Ret v2
  /\ store (snd run) = <[key := json_dumps v2]> (store w).
Proof.
  intros Hwf Hcmd run. unfold run, bind.
  rewrite save_data_up by exact Hcmd.
  rewrite save_data_up by exact Hcmd.
  rewrite (load_data_run self key (json_dumps v2)).
  - rewrite json_loads_dumps by exact Hwf. cbn. split; [reflexivity|].
    apply insert_insert_eq.
  - exact Hcmd.
  - cbn. apply lookup_insert_eq.
  - apply json_dumps_nonempty.
Qed.

Lemma save_data_overwrites_witness :
  wf_value (VList [morty]) = true
  /\ redis_cmd_exn quiet_world = None
  /\ fst ((save_data {| redis_client := {| host := "localhost"; port := 6379;
                                           decode_responses := true |} |}
             "k" (VList fixture) ;;;
           save_data {| redis_client := {| host := "localhost"; port := 6379;
                                           decode_responses := true |} |}
             "k" (VList [morty]) ;;;
           load_data {| redis_client := {| host := "localhost"; port := 6379;
                                           decode_responses := true |} |} "k") quiet_world)
     = Ret (VList [morty]).
Proof.
  split; [reflexivity|]. split; [reflexivity|].
  destruct (save_data_overwrites
              {| redis_client := {| host := "localhost"; port := 6379;
                                    decode_responses := true |} |}
              "k" (VList fixture) (VList [morty]) quiet_world eq_refl eq_refl) as [H _].
  exact H.
Defined.

Lemma load_data_fst self key w :
  fst (load_data self key w)
  = match redis_cmd_exn w with
    | Some e => Raise e
    | None =>
        match store w !! key with
        | Some (String c s) => json_loads (String c s)
        | _ => Ret VNone
        end
    end.
Proof.
  unfold load_data, bind, redis_get, emit. cbn.
  destruct (redis_cmd_exn w); [reflexivity|].
  destruct (store w !! key) as [[|c s]|]; reflexivity.
Qed.

(** X3.  [save_data] touches its own key only: what [load_data] returns
    for any other key is what it returned before the save. *)
Theorem save_data_keeps_other_keys (self : RedisDataHandler) (key other : string)
    (v : value) (w : world) :
  key <> other ->
  redis_cmd_exn w = None ->
  fst ((save_data self key v ;;; load_data self other) w) = fst (load_data self other w)
  /\ store (snd (save_data self key v w)) !! other = store w !! other.
Proof.
  intros Hne Hcmd. unfold bind. rewrite save_data_up by exact Hcmd.
  rewrite !load_data_fst. cbn. rewrite Hcmd.
  rewrite lookup_insert_ne by exact Hne. split; reflexivity.
Qed.

Lemma save_data_keeps_other_keys_witness :
  "k" <> "other"
  /\ redis_cmd_exn quiet_world = None
  /\ store (snd (save_data {| redis_client := {| host := "localhost"; port := 6379;
                                                 decode_responses := true |} |}
                   "k" (VList fixture) quiet_world)) !! "other"
     = store quiet_world !! "other".
Proof.
  split; [discriminate|]. split; [reflexivity|].
  destruct (save_data_keeps_other_keys
              {| redis_client := {| host := "localhost"; port := 6379;
                                    decode_responses := true |} |}
              "k" "other" (VList fixture) quiet_world ltac:(discriminate) eq_refl)
    as [_ H].
  exact H.
Defined.

(** ** The fetch at its edges *)

(** X4.  For a response whose status is neither 200 nor in the error
    classes 400 to 599, [get_characters] raises nothing and returns
    [None], whatever the body holds. *)
Theorem get_characters_falls_through (self : APICharacterRetriever) (w : world)
    (r : response) :
  http w (endpoint_url self) = Ret r ->
  status_code r <> 200 ->
  ~ (400 <= status_code r < 600) ->
  get_characters self w = (Ret VNone, log w [HttpGet (endpoint_url self)]).
Proof.
  intros Hr Hne Herr. rewrite (get_characters_run self w r Hr).
  destruct (Z.eqb_spec (status_code r) 200) as [|_]; [congruence|].
  unfold raise_for_status.
  destruct (Z.leb_spec 400 (status_code r)); [|reflexivity].
  destruct (Z.ltb_spec (status_code r) 600); [lia | reflexivity].
Qed.

Lemma get_characters_falls_through_witness :
  http (world_with (answer 302 page)) "https://rickandmortyapi.com/api/character"
  = Ret (answer 302 page)
  /\ status_code (answer 302 page) <> 200
  /\ ~ (400 <= status_code (answer 302 page) < 600)
  /\ fst (get_characters
            (APICharacterRetriever_init "https://rickandmortyapi.com/api/character")
            (world_with (answer 302 page))) = Ret VNone.
Proof.
  split; [reflexivity|]. split; [discriminate|]. split; [simpl; lia|].
  rewrite (get_characters_falls_through
             (APICharacterRetriever_init "https://rickandmortyapi.com/api/character")
             (world_with (answer 302 page)) (answer 302 page) eq_refl
             ltac:(discriminate) ltac:(simpl; lia)).
  reflexivity.
Defined.

(** X5.  With status 200, [get_characters] raises instead of returning
    when the body is not what it expects: [JSONDecodeError] for a body
    that is not JSON, [KeyError('results')] for a JSON object without
    that key, [TypeError] for a JSON document that is not an object. *)
Theorem get_characters_bad_body (self : APICharacterRetriever) (w : world) (r : response) :
  http w (endpoint_url self) = Ret r ->
  status_code r = 200 ->
  (body r = None -> fst (get_characters self w) = Raise JSONDecodeError)
  /\ (forall d, body r = Some (VDict d) -> dict_get "results" d = None ->
      fst (get_characters self w) = Raise (KeyError "results"))
  /\ (forall v, body r = Some v ->
      match v with VDict _ => False | _ => True end ->
      fst (get_characters self w) = Raise TypeError).
Proof.
  intros Hr H200. rewrite (get_characters_run self w r Hr), H200. cbn [fst].
  unfold json. split; [|split].
  - intros ->. reflexivity.
  - intros d -> Hd. simpl. by rewrite Hd.
  - intros v -> Hv. destruct v; try reflexivity. destruct Hv.
Qed.

Lemma get_characters_bad_body_witness :
  http (world_with (answer 200 (VList fixture))) "https://rickandmortyapi.com/api/character"
  = Ret (answer 200 (VList fixture))
  /\ status_code (answer 200 (VList fixture)) = 200
  /\ fst (get_characters
            (APICharacterRetriever_init "https://rickandmortyapi.com/api/character")
            (world_with (answer 200 (VList fixture)))) = Raise TypeError.
Proof.
  split; [reflexivity|]. split; [reflexivity|].
  destruct (get_characters_bad_body
              (APICharacterRetriever_init "https://rickandmortyapi.com/api/character")
              (world_with (answer 200 (VList fixture))) (answer 200 (VList fixture))
              eq_refl eq_refl) as (_ & _ & H).
  exact (H (VList fixture) eq_refl I).
Defined.

(** ** The workflow, end to end *)

Lemma log_put w key text es : log (put w key text) es = put (log w es) key text.
Proof. reflexivity. Qed.

Lemma process_data_not_iterable d e w :
  iter_value d = Raise e ->
  process_data (CharacterDataProcessor_init d, w)
  = (Raise e, (CharacterDataProcessor_init d, w)).
Proof.
  intros Hd. unfold process_data, display_status_distribution, bind, get_self, lift_result,
    status_distribution_of. cbn. rewrite Hd. reflexivity.
Qed.

(** X6.  When the API answers with a status that is neither 200 nor an
    error class and Redis is up, the run does not stop at the fetch: it
    stores the text [null] under the key and then fails with a
    [TypeError] at the start of the report, before anything is drawn or
    printed. *)
Theorem execute_caches_null (self : WorkflowExecutor) (w : world) (r : response) :
  http w (api_endpoint self) = Ret r ->
  status_code r <> 200 ->
  ~ (400 <= status_code r < 600) ->
  redis_ping_exn w = None ->
  redis_cmd_exn w = None ->
  execute self w
  = (Raise TypeError,
     put (log w [HttpGet (api_endpoint self);
                 RedisPing "localhost" 6379;
                 RedisSet (redis_key self) "null"])
         (redis_key self) "null")
  /\ exit_status (fst (execute self w)) = 1.
Proof.
  intros Hr Hne Herr Hup Hcmd.
  assert (H : execute self w
              = (Raise TypeError,
                 put (log w [HttpGet (api_endpoint self);
                             RedisPing "localhost" 6379;
                             RedisSet (redis_key self) "null"])
                     (redis_key self) "null")).
  { rewrite execute_unfold.
    rewrite (get_characters_falls_through
               (APICharacterRetriever_init (api_endpoint self)) w r Hr Hne Herr).
    rewrite RedisDataHandler_init_up by exact Hup.
    rewrite save_data_up by exact Hcmd.
    rewrite (process_data_not_iterable VNone TypeError) by reflexivity.
    cbn [snd json_dumps APICharacterRetriever_init endpoint_url].
    by rewrite !log_app. }
  split; [exact H|]. rewrite H. reflexivity.
Qed.

Lemma execute_caches_null_witness :
  http (world_with (answer 302 page)) "https://rickandmortyapi.com/api/character"
  = Ret (answer 302 page)
  /\ status_code (answer 302 page) <> 200
  /\ ~ (400 <= status_code (answer 302 page) < 600)
  /\ redis_ping_exn (world_with (answer 302 page)) = None
  /\ redis_cmd_exn (world_with (answer 302 page)) = None
  /\ fst (main (world_with (answer 302 page))) = Raise TypeError
  /\ store (snd (main (world_with (answer 302 page)))) !! "rickandmorty:characters"
     = Some "null".
Proof.
  split; [reflexivity|]. split; [discriminate|]. split; [simpl; lia|].
  split; [reflexivity|]. split; [reflexivity|].
  destruct (execute_caches_null
              (WorkflowExecutor_init "https://rickandmortyapi.com/api/character"
                 "rickandmorty:characters")
              (world_with (answer 302 page)) (answer 302 page) eq_refl
              ltac:(discriminate) ltac:(simpl; lia) eq_refl eq_refl) as [H _].
  unfold main. rewrite H. split; [reflexivity|]. apply lookup_insert_eq.
Defined.

(** X7.  When the API answers with an error status (400 to 599), the run
    ends at the fetch with the [HTTPError]: Redis is not contacted,
    nothing is cached, drawn or printed, and the process ends with
    status 1. *)
Theorem execute_stops_at_http_error (self : WorkflowExecutor) (w : world) (r : response) :
  http w (api_endpoint self) = Ret r ->
  400 <= status_code r < 600 ->
  execute self w = (Raise (HTTPError (status_code r)), log w [HttpGet (api_endpoint self)])
  /\ store (snd (execute self w)) = store w
  /\ exit_status (fst (execute self w)) = 1.
Proof.
  intros Hr Herr.
  assert (H : execute self w
              = (Raise (HTTPError (status_code r)), log w [HttpGet (api_endpoint self)])).
  { rewrite execute_unfold.
    rewrite (get_characters_run (APICharacterRetriever_init (api_endpoint self)) w r Hr).
    destruct (Z.eqb_spec (status_code r) 200) as [|_]; [lia|].
    unfold raise_for_status.
    destruct (Z.leb_spec 400 (status_code r)); [|lia].
    destruct (Z.ltb_spec (status_code r) 600); [|lia]. reflexivity. }
  split; [exact H|]. rewrite H. split; reflexivity.
Qed.

Lemma execute_stops_at_http_error_witness :
  http (world_with (answer 404 page)) "https://rickandmortyapi.com/api/character"
  = Ret (answer 404 page)
  /\ 400 <= status_code (answer 404 page) < 600
  /\ main (world_with (answer 404 page))
     = (Raise (HTTPError 404),
        log (world_with (answer 404 page))
          [HttpGet "https://rickandmortyapi.com/api/character"]).
Proof.
  split; [reflexivity|]. split; [simpl; lia|].
  destruct (execute_stops_at_http_error
              (WorkflowExecutor_init "https://rickandmortyapi.com/api/character"
                 "rickandmorty:characters")
              (world_with (answer 404 page)) (answer 404 page) eq_refl
              ltac:(simpl; lia)) as [H _].
  exact H.
Defined.

(** X8.  A run that gets status 200 with a list of well-formed records
    under [results], Redis being up, issues the GET request, the PING
    and the SET of the serialised list and hands the list to the report.
    If the chart operation then returns, the run goes on with the
    listing of the humans and the search for "Morty", returns normally,
    and the process ends with status 0. *)
Theorem execute_succeeds (self : WorkflowExecutor) (w : world) (r : response)
    (d : list (string * value)) (records : list value) (v : value)
    (s1 : CharacterDataProcessor * world) :
  http w (api_endpoint self) = Ret r ->
  status_code r = 200 ->
  body r = Some (VDict d) ->
  dict_get "results" d = Some (VList records) ->
  records_ok records = true ->
  redis_ping_exn w = None ->
  redis_cmd_exn w = None ->
  let cached :=
    put (log w [HttpGet (api_endpoint self);
                RedisPing "localhost" 6379;
                RedisSet (redis_key self) (json_dumps (VList records))])
        (redis_key self) (json_dumps (VList records)) in
  display_status_distribution "status_distribution.png"
    (CharacterDataProcessor_init (VList records), cached) = (Ret v, s1) ->
  execute self w
  = (Ret VNone,
     log (snd s1) (species_events records "Human" ++ name_events records "Morty"))
  /\ exit_status (fst (execute self w)) = 0.
Proof.
  intros Hr H200 Hb Hres Hok Hup Hcmd cached Hchart.
  match goal with |- ?lhs = ?rhs /\ _ => assert (H : lhs = rhs) end.
  { rewrite execute_unfold.
    rewrite (get_characters_run (APICharacterRetriever_init (api_endpoint self)) w r Hr).
    rewrite H200. cbn [Z.eqb Pos.eqb]. unfold json. rewrite Hb. cbn [rbind getitem].
    rewrite Hres.
    rewrite RedisDataHandler_init_up by exact Hup.
    rewrite save_data_up by exact Hcmd.
    cbn [APICharacterRetriever_init endpoint_url]. rewrite !log_app. cbn [app].
    fold cached.
    rewrite (process_data_after_chart records cached v s1 Hok Hchart).
    reflexivity. }
  split; [exact H|]. rewrite H. reflexivity.
Qed.

Lemma execute_succeeds_witness :
  http quiet_world "https://rickandmortyapi.com/api/character" = Ret (answer 200 page)
  /\ status_code (answer 200 page) = 200
  /\ body (answer 200 page)
     = Some (VDict [("info", VDict [("count", VInt 3)]); ("results", VList fixture)])
  /\ dict_get "results" [("info", VDict [("count", VInt 3)]); ("results", VList fixture)]
     = Some (VList fixture)
  /\ records_ok fixture = true
  /\ redis_ping_exn quiet_world = None
  /\ redis_cmd_exn quiet_world = None
  /\ fst (display_status_distribution "status_distribution.png"
            (CharacterDataProcessor_init (VList fixture),
             put (log quiet_world
                    [HttpGet "https://rickandmortyapi.com/api/character";
                     RedisPing "localhost" 6379;
                     RedisSet "rickandmorty:characters" (json_dumps (VList fixture))])
                 "rickandmorty:characters" (json_dumps (VList fixture))))
     = Ret VNone
  /\ exit_status (fst (main quiet_world)) = 0.
Proof.
  repeat (split; [reflexivity|]).
  destruct (execute_succeeds
              (WorkflowExecutor_init "https://rickandmortyapi.com/api/character"
                 "rickandmorty:characters")
              quiet_world (answer 200 page) _ fixture VNone _
              eq_refl eq_refl eq_refl eq_refl eq_refl eq_refl eq_refl
              (surjective_pairing _)) as [_ H].
  exact H.
Defined.

Lemma get_characters_fst self w :
  fst (get_characters self w)
  = match http w (endpoint_url self) with
    | Ret r =>
        if status_code r =? 200
        then let? doc := json r in getitem doc "results"
        else let? _ := raise_for_status r in Ret VNone
    | Raise e => Raise e
    end.
Proof.
  destruct (http w (endpoint_url self)) as [r|e] eqn:Hr.
  - by rewrite (get_characters_run self w r Hr).
  - unfold get_characters. unfold bind at 1. rewrite requests_get_run. cbn [http log].
    by rewrite Hr.
Qed.

(** The world that a run leaves when fetch, liveness check and cache
    write succeed: the fetched value is cached and the report adds
    report actions only. *)
Lemma execute_shape self w d :
  fst (get_characters (APICharacterRetriever_init (api_endpoint self)) w) = Ret d ->
  redis_ping_exn w = None ->
  redis_cmd_exn w = None ->
  exists r es,
    execute self w
    = (r, log (put (log w [HttpGet (api_endpoint self);
                           RedisPing "localhost" 6379;
                           RedisSet (redis_key self) (json_dumps d)])
                   (redis_key self) (json_dumps d)) es).
Proof.
  intros Hfetch Hup Hcmd.
  destruct (reports_process_data (CharacterDataProcessor_init d)) as (r & es & _ & Hrun).
  exists (let? _ := r in Ret VNone), es.
  rewrite execute_unfold, get_characters_split, Hfetch.
  rewrite RedisDataHandler_init_up by exact Hup.
  rewrite save_data_up by exact Hcmd.
  rewrite Hrun. cbn [snd APICharacterRetriever_init endpoint_url]. rewrite !log_app.
  destruct r; reflexivity.
Qed.

(** X9.  Running the workflow a second time against the same API
    answer leaves the Redis key space exactly as the first run left it:
    the snapshot under the key is overwritten by an identical one. *)
Theorem execute_twice_same_store (self : WorkflowExecutor) (w : world) (d : value) :
  fst (get_characters (APICharacterRetriever_init (api_endpoint self)) w) = Ret d ->
  redis_ping_exn w = None ->
  redis_cmd_exn w = None ->
  store (snd (execute self (snd (execute self w)))) = store (snd (execute self w))
  /\ store (snd (execute self w)) = <[redis_key self := json_dumps d]> (store w).
Proof.
  intros Hfetch Hup Hcmd.
  destruct (execute_shape self w d Hfetch Hup Hcmd) as (r & es & Hrun).
  rewrite Hrun. cbn [snd].
  set (w1 := log (put (log w [HttpGet (api_endpoint self);
                              RedisPing "localhost" 6379;
                              RedisSet (redis_key self) (json_dumps d)])
                      (redis_key self) (json_dumps d)) es).
  assert (Hfetch1 : fst (get_characters (APICharacterRetriever_init (api_endpoint self)) w1)
                    = Ret d).
  { rewrite get_characters_fst in Hfetch |- *. exact Hfetch. }
  destruct (execute_shape self w1 d Hfetch1 Hup Hcmd) as (r' & es' & Hrun').
  rewrite Hrun'. cbn. split; [apply insert_insert_eq | reflexivity].
Qed.

Lemma execute_twice_same_store_witness :
  fst (get_characters (APICharacterRetriever_init "https://rickandmortyapi.com/api/character")
         quiet_world) = Ret (VList fixture)
  /\ redis_ping_exn quiet_world = None
  /\ redis_cmd_exn quiet_world = None
  /\ store (snd (main (snd (main quiet_world)))) = store (snd (main quiet_world)).
Proof.
  split; [reflexivity|]. split; [reflexivity|]. split; [reflexivity|].
  destruct (execute_twice_same_store
              (WorkflowExecutor_init "https://rickandmortyapi.com/api/character"
                 "rickandmorty:characters")
              quiet_world (VList fixture) eq_refl eq_refl eq_refl) as [H _].
  exact H.
Defined.

(** X10.  What a run cached can be read back: after a run whose fetch,
    liveness check and cache write succeeded, [load_data] under the
    workflow's key returns the very value that was fetched, whether or
    not the report then failed. *)
Theorem load_data_after_execute (self : WorkflowExecutor) (handler : RedisDataHandler)
    (w : world) (d : value) :
  fst (get_characters (APICharacterRetriever_init (api_endpoint self)) w) = Ret d ->
  wf_value d = true ->
  redis_ping_exn w = None ->
  redis_cmd_exn w = None ->
  fst (load_data handler (redis_key self) (snd (execute self w))) = Ret d.
Proof.
  intros Hfetch Hwf Hup Hcmd.
  destruct (execute_shape self w d Hfetch Hup Hcmd) as (r & es & Hrun).
  rewrite Hrun. cbn [snd].
  rewrite (load_data_run handler (redis_key self) (json_dumps d)).
  - cbn [fst]. by apply json_loads_dumps.
  - exact Hcmd.
  - cbn. apply lookup_insert_eq.
  - apply json_dumps_nonempty.
Qed.

Lemma load_data_after_execute_witness :
  fst (get_characters (APICharacterRetriever_init "https://rickandmortyapi.com/api/character")
         quiet_world) = Ret (VList fixture)
  /\ wf_value (VList fixture) = true
  /\ redis_ping_exn quiet_world = None
  /\ redis_cmd_exn quiet_world = None
  /\ fst (load_data {| redis_client := {| host := "localhost"; port := 6379;
                                          decode_responses := true |} |}
            "rickandmorty:characters" (snd (main quiet_world)))
     = Ret (VList fixture).
Proof.
  split; [reflexivity|]. split; [reflexivity|]. split; [reflexivity|]. split; [reflexivity|].
  exact (load_data_after_execute
           (WorkflowExecutor_init "https://rickandmortyapi.com/api/character"
              "rickandmorty:characters")
           {| redis_client := {| host := "localhost"; port := 6379;
                                 decode_responses := true |} |}
           quiet_world (VList fixture) eq_refl eq_refl eq_refl eq_refl).
Defined.

(** ** The reports on malformed records *)

Lemma comprehension_raise {X} (cond : X -> result bool) (p : X -> bool) good bad rest e :
  (forall x, In x good -> cond x = Ret (p x)) ->
  cond bad = Raise e ->
  comprehension cond (good ++ bad :: rest) = Raise e.
Proof.
  intros Hgood Hbad. induction good as [|x good IH]; simpl.
  - by rewrite Hbad.
  - rewrite (Hgood x) by (left; reflexivity). simpl.
    rewrite IH by (intros y Hy; apply Hgood; right; exact Hy). reflexivity.
Qed.

(** X11.  When a record has no [species], or a [species] that is not a
    string, [show_characters_by_species] raises the error of the first
    such record ([KeyError], [TypeError] or [AttributeError]) and prints
    nothing at all, not even the header, whatever the records after
    it. *)
Theorem show_characters_by_species_bad_record (good rest : list value) (bad : value)
    (t : string) (e : exn) (w : world) :
  records_ok good = true ->
  (let? species := getitem bad "species" in py_lower species) = Raise e ->
  let self := CharacterDataProcessor_init (VList (good ++ bad :: rest)) in
  show_characters_by_species t (self, w) = (Raise e, (self, w)).
Proof.
  intros Hok Hbad self.
  assert (H : species_matches_of self t = Raise e).
  { unfold species_matches_of, self. simpl.
    apply (comprehension_raise _ (has_species t)).
    - intros c Hc.
      destruct (is_record_fields c (records_ok_In _ _ Hok Hc)) as (_ & _ & Hs).
      rewrite Hs. reflexivity.
    - destruct (getitem bad "species") as [sp|]; simpl in Hbad |- *; [|congruence].
      destruct (py_lower sp); [discriminate | simpl in *; congruence]. }
  unfold show_characters_by_species, bind, get_self, lift_result. cbn [fst snd].
  fold self. rewrite H. reflexivity.
Qed.

Lemma show_characters_by_species_bad_record_witness :
  records_ok [rick] = true
  /\ (let? species := getitem (VDict [("name", VStr "Beth")]) "species" in py_lower species)
     = Raise (KeyError "species")
  /\ show_characters_by_species "Human"
       (CharacterDataProcessor_init (VList ([rick] ++ VDict [("name", VStr "Beth")] :: [morty])),
        quiet_world)
     = (Raise (KeyError "species"),
        (CharacterDataProcessor_init (VList ([rick] ++ VDict [("name", VStr "Beth")] :: [morty])),
         quiet_world)).
Proof.
  split; [reflexivity|]. split; [reflexivity|].
  exact (show_characters_by_species_bad_record [rick] [morty]
           (VDict [("name", VStr "Beth")]) "Human" (KeyError "species") quiet_world
           eq_refl eq_refl).
Defined.

(** X12.  When a record has no [name], or a [name] that is not a
    string, [find_characters_by_name] raises the error of the first such
    record and prints nothing, neither a header nor the not-found
    message. *)
Theorem find_characters_by_name_bad_record (good rest : list value) (bad : value)
    (t : string) (e : exn) (w : world) :
  records_ok good = true ->
  (let? name := getitem bad "name" in py_lower name) = Raise e ->
  let self := CharacterDataProcessor_init (VList (good ++ bad :: rest)) in
  find_characters_by_name t (self, w) = (Raise e, (self, w)).
Proof.
  intros Hok Hbad self.
  assert (H : name_matches_of self t = Raise e).
  { unfold name_matches_of, self. simpl.
    apply (comprehension_raise _ (name_has t)).
    - intros c Hc.
      destruct (is_record_fields c (records_ok_In _ _ Hok Hc)) as (Hn & _ & _).
      rewrite Hn. reflexivity.
    - destruct (getitem bad "name") as [n|]; simpl in Hbad |- *; [|congruence].
      destruct (py_lower n); [discriminate | simpl in *; congruence]. }
  unfold find_characters_by_name, bind, get_self, lift_result. cbn [fst snd].
  fold self. rewrite H. reflexivity.
Qed.

Lemma find_characters_by_name_bad_record_witness :
  records_ok [rick] = true
  /\ (let? name := getitem (VDict [("name", VInt 7)]) "name" in py_lower name)
     = Raise AttributeError
  /\ fst (find_characters_by_name "Morty"
            (CharacterDataProcessor_init (VList ([rick] ++ VDict [("name", VInt 7)] :: [morty])),
             quiet_world))
     = Raise AttributeError.
Proof.
  split; [reflexivity|]. split; [reflexivity|].
  rewrite (find_characters_by_name_bad_record [rick] [morty]
             (VDict [("name", VInt 7)]) "Morty" AttributeError quiet_world
             eq_refl eq_refl).
  reflexivity.
Defined.

Lemma counter_update_app f l1 l2 c :
  counter_update f (l1 ++ l2) c
  = let? c' := counter_update f l1 c in counter_update f l2 c'.
Proof.
  revert c. induction l1 as [|x l1 IH]; intros c; simpl; [reflexivity|].
  destruct (f x) as [y|]; simpl; [|reflexivity].
  destruct (hashable y) as [k|]; simpl; [apply IH | reflexivity].
Qed.

(** X13.  When a record has no [status], or a [status] that cannot be a
    dictionary key (a list or a dictionary), [display_status_distribution]
    raises the error of the first such record before any chart call: no
    figure is drawn and no file is written. *)
Theorem display_status_distribution_bad_record (good rest : list value) (bad : value)
    (save_path : string) (e : exn) (w : world) :
  records_ok good = true ->
  (let? status := getitem bad "status" in hashable status) = Raise e ->
  let self := CharacterDataProcessor_init (VList (good ++ bad :: rest)) in
  display_status_distribution save_path (self, w) = (Raise e, (self, w)).
Proof.
  intros Hok Hbad self.
  assert (H : status_distribution_of self = Raise e).
  { unfold status_distribution_of, self. simpl.
    rewrite counter_update_app.
    pose proof (counter_update_records good [] Hok) as Hg.
    change (distribution []) with (@nil (value * Z)) in Hg. rewrite Hg. simpl.
    destruct (getitem bad "status") as [st|]; simpl in Hbad |- *; [|congruence].
    destruct (hashable st); [discriminate | simpl in *; congruence]. }
  unfold display_status_distribution, bind, get_self, lift_result. cbn [fst snd].
  fold self. rewrite H. reflexivity.
Qed.

Lemma display_status_distribution_bad_record_witness :
  records_ok [rick] = true
  /\ (let? status := getitem (VDict [("status", VList [])]) "status" in hashable status)
     = Raise TypeError
  /\ fst (display_status_distribution "status_distribution.png"
            (CharacterDataProcessor_init (VList ([rick] ++ VDict [("status", VList [])] :: [])),
             quiet_world))
     = Raise TypeError.
Proof.
  split; [reflexivity|]. split; [reflexivity|].
  rewrite (display_status_distribution_bad_record [rick] []
             (VDict [("status", VList [])]) "status_distribution.png" TypeError quiet_world
             eq_refl eq_refl).
  reflexivity.
Defined.

(** ** Letter case and fragments in the two filters *)

Lemma lower_char_idempotent c : lower_char (lower_char c) = lower_char c.
Proof. destruct c as [[] [] [] [] [] [] [] []]; reflexivity. Qed.

Lemma lower_idempotent s : lower (lower s) = lower s.
Proof.
  induction s as [|c s IH]; simpl; [reflexivity|].
  by rewrite lower_char_idempotent, IH.
Qed.

(** X14.  Both filters look at their argument through [lower] only: two
    targets that agree once lowered select the same records of any data
    (and raise the same error on malformed data); in particular a
    target and its lowered form are interchangeable. *)
Theorem filters_ignore_case_of_argument (self : CharacterDataProcessor) (t : string) :
  (forall t', lower t' = lower t ->
     species_matches_of self t' = species_matches_of self t
     /\ name_matches_of self t' = name_matches_of self t)
  /\ species_matches_of self (lower t) = species_matches_of self t
  /\ name_matches_of self (lower t) = name_matches_of self t.
Proof.
  assert (H : forall t', lower t' = lower t ->
                species_matches_of self t' = species_matches_of self t
                /\ name_matches_of self t' = name_matches_of self t).
  { intros t' Heq. unfold species_matches_of, name_matches_of. by rewrite Heq. }
  split; [exact H|]. apply H. apply lower_idempotent.
Qed.

Lemma contains_itself s : contains s s = true.
Proof.
  apply contains_iff. exists "", "". by rewrite append_nil_r.
Qed.

(** X15.  Every record is found by its full name, typed in any letter
    case: if the term equals the name of a record of the list once both
    are lowered, the search selects the record and prints the header and
    the lines, not the not-found message. *)
Theorem find_characters_by_name_full_name (records : list value) (c : value)
    (t : string) (w : world) :
  records_ok records = true ->
  In c records ->
  lower t = lower (field "name" c) ->
  let self := CharacterDataProcessor_init (VList records) in
  let found := List.filter (name_has t) records in
  name_matches_of self t = Ret found
  /\ In c found
  /\ find_characters_by_name t (self, w)
     = (Ret VNone,
        (self, log w (Print (nl +:+ "Characters containing '" +:+ t +:+ "' in their name:")
                      :: map (fun c => Print (name_text c)) found))).
Proof.
  intros Hok Hc Ht self found.
  assert (Hin : In c found).
  { apply filter_In. split; [exact Hc|].
    unfold name_has, contains_ignoring_case. rewrite Ht. apply contains_itself. }
  split; [by apply name_matches_records|]. split; [exact Hin|].
  unfold self. rewrite find_characters_by_name_run by exact Hok.
  unfold name_events. fold found. destruct found; [destruct Hin | reflexivity].
Qed.

Lemma find_characters_by_name_full_name_witness :
  records_ok fixture = true
  /\ In morty fixture
  /\ lower "MORTY smith" = lower (field "name" morty)
  /\ name_matches_of (CharacterDataProcessor_init (VList fixture)) "MORTY smith" = Ret [morty].
Proof.
  split; [reflexivity|]. split; [right; right; left; reflexivity|].
  split; [reflexivity|].
  destruct (find_characters_by_name_full_name fixture morty "MORTY smith" quiet_world
              eq_refl (or_intror (or_intror (or_introl eq_refl))) eq_refl) as [H _].
  exact H.
Defined.

Lemma contains_trans a b c :
  contains a b = true -> contains b c = true -> contains a c = true.
Proof.
  rewrite !contains_iff. intros (p & q & ->) (p' & q' & ->).
  exists (p +:+ p'), (q' +:+ q). by rewrite !append_assoc.
Qed.

Lemma filter_sublist_impl {X} (p q : X -> bool) (l : list X) :
  (forall x, p x = true -> q x = true) ->
  sublist (List.filter p l) (List.filter q l).
Proof.
  intros Hpq. induction l as [|x l IH]; simpl; [constructor|].
  destruct (p x) eqn:Hp.
  - rewrite (Hpq x Hp). by constructor.
  - destruct (q x); [by constructor | exact IH].
Qed.

(** X16.  A shorter term never finds less: when the term [t'] occurs in
    the term [t] (letter case ignored), every record that the search
    for [t] selects is selected by the search for [t'], in the same
    order. *)
Theorem find_characters_by_name_shorter_term (records : list value) (t t' : string) :
  records_ok records = true ->
  contains_ignoring_case t t' = true ->
  let self := CharacterDataProcessor_init (VList records) in
  exists found found',
    name_matches_of self t = Ret found
    /\ name_matches_of self t' = Ret found'
    /\ sublist found found'.
Proof.
  intros Hok Hsub self.
  exists (List.filter (name_has t) records), (List.filter (name_has t') records).
  split; [by apply name_matches_records|]. split; [by apply name_matches_records|].
  apply filter_sublist_impl. intros c Hc.
  unfold name_has, contains_ignoring_case in *. eapply contains_trans; eauto.
Qed.

Lemma find_characters_by_name_shorter_term_witness :
  records_ok fixture = true
  /\ contains_ignoring_case "Morty Smith" "mort" = true
  /\ exists found found',
       name_matches_of (CharacterDataProcessor_init (VList fixture)) "Morty Smith" = Ret found
       /\ name_matches_of (CharacterDataProcessor_init (VList fixture)) "mort" = Ret found'
       /\ sublist found found'.
Proof.
  split; [reflexivity|]. split; [reflexivity|].
  exact (find_characters_by_name_shorter_term fixture "Morty Smith" "mort" eq_refl eq_refl).
Defined.

(** ** The shape of the status distribution *)

Lemma occurrences_le_length x l : (occurrences x l <= length l)%nat.
Proof.
  induction l as [|y l IH]; simpl; [lia|]. destruct (String.eqb y x); lia.
Qed.

Lemma occurrences_In x l : In x l -> (1 <= occurrences x l)%nat.
Proof.
  induction l as [|y l IH]; simpl; [tauto|].
  intros [->|H]; [rewrite String.eqb_refl; lia|].
  specialize (IH H). destruct (String.eqb y x); lia.
Qed.

Lemma distinct_length l : (length (distinct l) <= length l)%nat.
Proof.
  induction l as [|x l IH]; simpl; [lia|].
  pose proof (List.filter_length_le (fun y => negb (String.eqb x y)) (distinct l)). lia.
Qed.

(** X17.  The chart never has an empty bar nor more bars than records:
    every count of the status distribution is at least 1 and at most
    the number of records, there are at most as many keys as records,
    and the distribution is empty exactly when there is no record. *)
Theorem status_distribution_bounds (records : list value) :
  records_ok records = true ->
  let c := distribution (map (field "status") records) in
  status_distribution_of (CharacterDataProcessor_init (VList records)) = Ret c
  /\ (forall k n, In (k, n) c -> 1 <= n <= Z.of_nat (length records))
  /\ (length (bars_of (counter_values c)) <= length records)%nat
  /\ (c = [] <-> records = []).
Proof.
  intros Hok c. split; [by apply status_distribution_records|].
  split; [|split].
  - intros k n Hin. unfold c, distribution in Hin. apply in_map_iff in Hin.
    destruct Hin as (s & Heq & Hs). inversion Heq; subst.
    apply (proj1 (distinct_In _ _)) in Hs.
    pose proof (occurrences_In s _ Hs).
    pose proof (occurrences_le_length s (map (field "status") records)) as Hle.
    rewrite length_map in Hle. lia.
  - unfold bars_of, counter_values, c, distribution.
    rewrite !length_map, length_combine, length_seq, !length_map.
    pose proof (distinct_length (map (field "status") records)) as Hle.
    rewrite length_map in Hle. lia.
  - unfold c, distribution. split.
    + destruct records as [|r records]; [reflexivity | discriminate].
    + intros ->. reflexivity.
Qed.

Lemma status_distribution_bounds_witness :
  records_ok fixture = true
  /\ status_distribution_of (CharacterDataProcessor_init (VList fixture))
     = Ret (distribution ["Alive"; "unknown"; "Alive"]).
Proof.
  split; [reflexivity|].
  destruct (status_distribution_bounds fixture eq_refl) as [H _].
  exact H.
Defined.

Lemma occurrences_Permutation x l l' :
  Permutation l l' -> occurrences x l = occurrences x l'.
Proof.
  induction 1; simpl; try lia.
Qed.

Lemma records_ok_Permutation records records' :
  Permutation records records' -> records_ok records = true -> records_ok records' = true.
Proof.
  unfold records_ok. rewrite !forallb_forall. intros Hp H c Hc.
  apply H. eapply Permutation_in; [symmetry; exact Hp | exact Hc].
Qed.

(** X18.  The order of the records decides the order of the bars only:
    for two lists holding the same records in different orders, the two
    status distributions hold the same entries (same statuses, same
    counts), possibly in a different order. *)
Theorem status_distribution_of_permutation (records records' : list value) :
  records_ok records = true ->
  Permutation records records' ->
  exists c c',
    status_distribution_of (CharacterDataProcessor_init (VList records)) = Ret c
    /\ status_distribution_of (CharacterDataProcessor_init (VList records')) = Ret c'
    /\ Permutation c c'.
Proof.
  intros Hok Hp.
  pose proof (records_ok_Permutation _ _ Hp Hok) as Hok'.
  exists (distribution (map (field "status") records)),
         (distribution (map (field "status") records')).
  split; [by apply status_distribution_records|].
  split; [by apply status_distribution_records|].
  assert (Hs : Permutation (map (field "status") records) (map (field "status") records'))
    by (by apply Permutation_map).
  unfold distribution.
  rewrite (map_ext (fun s => (VStr s, Z.of_nat (occurrences s (map (field "status") records))))
             (fun s => (VStr s, Z.of_nat (occurrences s (map (field "status") records')))))
    by (intros s; by rewrite (occurrences_Permutation s _ _ Hs)).
  apply Permutation_map.
  apply NoDup_Permutation; [apply distinct_NoDup | apply distinct_NoDup |].
  intros s. rewrite !list_elem_of_In, !distinct_In.
  split; intros H.
  - eapply Permutation_in; [exact Hs | exact H].
  - eapply Permutation_in; [symmetry; exact Hs | exact H].
Qed.

Lemma status_distribution_of_permutation_witness :
  records_ok fixture = true
  /\ Permutation fixture [abadango; rick; morty]
  /\ exists c c',
       status_distribution_of (CharacterDataProcessor_init (VList fixture)) = Ret c
       /\ status_distribution_of (CharacterDataProcessor_init (VList [abadango; rick; morty]))
          = Ret c'
       /\ Permutation c c'.
Proof.
  split; [reflexivity|].
  assert (Hp : Permutation fixture [abadango; rick; morty]) by apply perm_swap.
  split; [exact Hp|].
  exact (status_distribution_of_permutation fixture [abadango; rick; morty] eq_refl Hp).
Defined.

(** ** What the reports never do *)

Lemma reports_world {A} (m : method A) d w :
  reports m ->
  exists es,
    forallb is_report_event es = true
    /\ snd (m (CharacterDataProcessor_init d, w)) = (CharacterDataProcessor_init d, log w es).
Proof.
  intros Hm. destruct (Hm (CharacterDataProcessor_init d)) as (r & es & Hes & Hrun).
  exists es. split; [exact Hes|]. by rewrite Hrun.
Qed.

(** X19.  Whatever the data, and whether it returns or raises, a report
    operation only prints and draws: it sends no request, issues no
    Redis command and leaves the Redis key space as it is. *)
Theorem report_operations_only_print_and_draw (d : value) (save_path t : string) (w : world) :
  let self := CharacterDataProcessor_init d in
  forall op : method value,
    op = display_status_distribution save_path
    \/ op = show_characters_by_species t
    \/ op = find_characters_by_name t
    \/ op = process_data ->
    exists es,
      forallb is_report_event es = true
      /\ trace (snd (snd (op (self, w)))) = trace w ++ es
      /\ store (snd (snd (op (self, w)))) = store w.
Proof.
  intros self op Hop.
  assert (Hr : reports op).
  { destruct Hop as [-> | [-> | [-> | ->]]];
      [apply reports_display | apply reports_show | apply reports_find
      | apply reports_process_data]. }
  destruct (reports_world op d w Hr) as (es & Hes & Hrun).
  exists es. split; [exact Hes|]. unfold self. rewrite Hrun. split; reflexivity.
Qed.

Lemma report_operations_only_print_and_draw_witness :
  exists es,
    forallb is_report_event es = true
    /\ trace (snd (snd (process_data (CharacterDataProcessor_init (VList fixture), quiet_world))))
       = trace quiet_world ++ es
    /\ store (snd (snd (process_data (CharacterDataProcessor_init (VList fixture), quiet_world))))
       = store quiet_world.
Proof.
  exact (report_operations_only_print_and_draw (VList fixture) default_save_path "Human"
           quiet_world process_data (or_intror (or_intror (or_intror eq_refl)))).
Defined.

(** ** The text that is cached *)

Lemma printable_append a b : printable (a +:+ b) = printable a && printable b.
Proof.
  induction a as [|c a IH]; simpl; [reflexivity|]. rewrite IH. by rewrite andb_assoc.
Qed.

Lemma printable_escape_char c : printable (json_escape_char c) = true.
Proof. destruct c as [[] [] [] [] [] [] [] []]; reflexivity. Qed.

Lemma printable_escape s : printable (json_escape s) = true.
Proof.
  induction s as [|c s IH]; simpl; [reflexivity|].
  by rewrite printable_append, printable_escape_char, IH.
Qed.

Lemma printable_encode_string s : printable (json_encode_string s) = true.
Proof.
  unfold json_encode_string. cbn [printable].
  rewrite printable_append, printable_escape. reflexivity.
Qed.

Lemma printable_uint d : printable (NilEmpty.string_of_uint d) = true.
Proof. induction d; simpl; [reflexivity | exact IHd ..]. Qed.

Lemma printable_str_of_nat n : printable (str_of_nat n) = true.
Proof. rewrite str_of_nat_NilEmpty. apply printable_uint. Qed.

Lemma printable_str_of_int z : printable (str_of_int z) = true.
Proof.
  destruct z as [|p|p].
  - reflexivity.
  - rewrite str_of_int_pos. apply printable_str_of_nat.
  - rewrite str_of_int_neg. cbn [printable]. by rewrite printable_str_of_nat.
Qed.

Lemma printable_join l :
  Forall (fun s => printable s = true) l -> printable (join ", " l) = true.
Proof.
  induction l as [|x l IH]; intros H; [reflexivity|].
  apply Forall_cons in H. destruct H as [Hx Hl].
  destruct l as [|y l]; [exact Hx|].
  rewrite join_cons2, !printable_append, Hx, (IH Hl). reflexivity.
Qed.

Lemma printable_json_dumps v : printable (json_dumps v) = true.
Proof.
  induction v as [ | b | z | s | l IH | d IH] using value_induction.
  - reflexivity.
  - destruct b; reflexivity.
  - apply printable_str_of_int.
  - apply printable_encode_string.
  - cbn [json_dumps]. rewrite !printable_append, printable_join; [reflexivity|].
    apply Forall_map. exact IH.
  - cbn [json_dumps]. rewrite !printable_append, printable_join; [reflexivity|].
    apply Forall_map. eapply Forall_impl; [exact IH|].
    intros [k x] Hx. cbn [fst snd] in *.
    by rewrite !printable_append, printable_encode_string, Hx.
Qed.

(** X20.  Whatever the records hold (control characters, accented
    letters, quotes), the text that [save_data] stores in Redis is
    never empty and is made of printable ASCII characters only. *)
Theorem save_data_stores_ascii (self : RedisDataHandler) (key : string) (v : value)
    (w : world) :
  redis_cmd_exn w = None ->
  exists text,
    store (snd (save_data self key v w)) !! key = Some text
    /\ text <> ""
    /\ printable text = true.
Proof.
  intros Hcmd. exists (json_dumps v). rewrite save_data_up by exact Hcmd. cbn.
  split; [apply lookup_insert_eq|]. split; [apply json_dumps_nonempty|].
  apply printable_json_dumps.
Qed.

Lemma save_data_stores_ascii_witness :
  redis_cmd_exn quiet_world = None
  /\ exists text,
       store (snd (save_data {| redis_client := {| host := "localhost"; port := 6379;
                                                   decode_responses := true |} |}
                     "k" (VStr (String (ascii_of_N 233) nl)) quiet_world)) !! "k" = Some text
       /\ text <> ""
       /\ printable text = true.
Proof.
  split; [reflexivity|].
  exact (save_data_stores_ascii
           {| redis_client := {| host := "localhost"; port := 6379;
                                 decode_responses := true |} |}
           "k" (VStr (String (ascii_of_N 233) nl)) quiet_world eq_refl).
Defined.
